(** * Markdown / Notion block converter

    A shallow embedding of the converter module of notion-mcp
    (markdown-converter.ts): the inline scanner [parseInlineFormatting],
    the line classifier [lineToBlock], the fence splitter
    [parseCodeBlocks], [markdownToBlocks], and the two renderers
    [blocksToMarkdown] and [blocksToPlainText].

    Strings.  A JavaScript string is a sequence of UTF-16 code units.  The
    model uses [string], so it covers the strings whose code units are all
    below 256; a character of the model is the code unit with that number.
    Within that range the line terminators are LF and CR, and the white
    space of [trim] and of the regular expression class \s is TAB, LF, VT,
    FF, CR, SPACE and NBSP (160). *)

From Stdlib Require Import String Ascii List Bool Arith Lia ZArith.
From Stdlib Require Import DecimalString.
Import ListNotations.
Open Scope string_scope.

(* ------------------------------------------------------------------ *)
(** ** String primitives *)

Module Str.

Definition LF : ascii := "010"%char.
Definition CR : ascii := "013"%char.

Definition nl : string := String LF EmptyString.

(** [s.startsWith(p)] *)
Definition startsWith (s p : string) : bool := String.prefix p s.

(** [s.substring(n)] for [n] a natural number: the suffix from [n];
    empty when [n] is past the end. *)
Fixpoint drop (n : nat) (s : string) : string :=
  match n, s with
  | O, _ => s
  | S _, EmptyString => EmptyString
  | S n', String _ s' => drop n' s'
  end.

(** [s.substring(0, n)] *)
Fixpoint take (n : nat) (s : string) : string :=
  match n, s with
  | O, _ => EmptyString
  | S _, EmptyString => EmptyString
  | S n', String c s' => String c (take n' s')
  end.

Definition isEmpty (s : string) : bool :=
  match s with EmptyString => true | _ => false end.

(** White space and line terminators, as [trim] and \s see them. *)
Definition isWhiteSpace (c : ascii) : bool :=
  let n := nat_of_ascii c in
  (Nat.leb 9 n && Nat.leb n 13) || Nat.eqb n 32 || Nat.eqb n 160.

(** The characters the regular expression [.] refuses. *)
Definition isLineTerminator (c : ascii) : bool :=
  Ascii.eqb c LF || Ascii.eqb c CR.

Definition isDigit (c : ascii) : bool :=
  let n := nat_of_ascii c in Nat.leb 48 n && Nat.leb n 57.

Fixpoint trimStart (s : string) : string :=
  match s with
  | EmptyString => EmptyString
  | String c s' => if isWhiteSpace c then trimStart s' else s
  end.

Fixpoint trimEnd (s : string) : string :=
  match s with
  | EmptyString => EmptyString
  | String c s' =>
      match trimEnd s' with
      | EmptyString => if isWhiteSpace c then EmptyString
                       else String c EmptyString
      | t => String c t
      end
  end.

(** [s.trim()] *)
Definition trim (s : string) : string := trimEnd (trimStart s).

(** [s.split('\n')]: never empty, the empty string gives one empty
    field. *)
Fixpoint split_nl (s : string) : list string :=
  match s with
  | EmptyString => [EmptyString]
  | String c s' =>
      if Ascii.eqb c LF then EmptyString :: split_nl s'
      else match split_nl s' with
           | h :: t => String c h :: t
           | [] => [String c EmptyString]
           end
  end.

(** [a.join(sep)] on an array of strings. *)
Definition join (sep : string) (a : list string) : string :=
  String.concat sep a.

End Str.

(* ------------------------------------------------------------------ *)
(** ** Regular expressions

    The converter uses six fixed regular expressions.  They are embedded
    as backtracking matchers in continuation style: a matcher takes the
    input at the current position and a continuation for what follows,
    and gives the first result the backtracking search of the engine
    finds. *)

Module Re.

Section Combinators.
Context {R : Type}.

(** A literal. *)
Definition lit (l : string) (k : string -> option R) (s : string)
  : option R :=
  if Str.startsWith s l then k (Str.drop (String.length l) s) else None.

(** [(C+?)]: one or more characters of class [p], as few as possible;
    [acc] is what the group has captured so far. *)
Fixpoint lazy_plus (p : ascii -> bool) (k : string -> string -> option R)
         (acc : string) (s : string) : option R :=
  match s with
  | EmptyString => None
  | String c s' =>
      if p c then
        match k (acc ++ String c EmptyString) s' with
        | Some r => Some r
        | None => lazy_plus p k (acc ++ String c EmptyString) s'
        end
      else None
  end.

(** [(C+)]: one or more characters of class [p], as many as possible,
    giving characters back on failure. *)
Fixpoint greedy_plus (p : ascii -> bool) (k : string -> string -> option R)
         (acc : string) (s : string) : option R :=
  match s with
  | EmptyString => None
  | String c s' =>
      if p c then
        match greedy_plus p k (acc ++ String c EmptyString) s' with
        | Some r => Some r
        | None => k (acc ++ String c EmptyString) s'
        end
      else None
  end.

(** [$] without the m flag: the end of the input. *)
Definition eoi (r : R) (s : string) : option R :=
  if Str.isEmpty s then Some r else None.
End Combinators.

Definition dot (c : ascii) : bool := negb (Str.isLineTerminator c).
Definition notChar (x : ascii) (c : ascii) : bool := negb (Ascii.eqb c x).

(** What a matcher anchored at one position returns: the capture
    groups 1 and 2 and the input left after the whole match. *)
Record groups := mkGroups { g1 : string; g2 : option string; after : string }.

Definition matcher := string -> option groups.

(** [/open(.+?)close/] *)
Definition delimited (open close : string) : matcher :=
  lit open
      (lazy_plus dot
         (fun inner => lit close (fun rest => Some (mkGroups inner None rest)))
         EmptyString).

(** [/\[([^\]]+)\]\(([^)]+)\)/] *)
Definition linkRe : matcher :=
  lit "["
      (greedy_plus (notChar "]"%char)
         (fun label =>
            lit "]("
                (greedy_plus (notChar ")"%char)
                   (fun url =>
                      lit ")" (fun rest => Some (mkGroups label (Some url) rest)))
                   EmptyString))
         EmptyString).

(** [/^(\d+)\.\s+(.+)$/] *)
Definition numberedRe : matcher :=
  greedy_plus Str.isDigit
    (fun digits =>
       lit "."
           (greedy_plus Str.isWhiteSpace
              (fun _ =>
                 greedy_plus dot
                   (fun item => eoi (mkGroups digits (Some item) EmptyString))
                   EmptyString)
              EmptyString))
    EmptyString.

(** The result of [regex.exec(s)]: [index], [match[0]], [match[1]],
    [match[2]]. *)
Record result := mkResult
  { index : nat; whole : string; group1 : string; group2 : option string }.

(** [regex.exec(s)] with [lastIndex = 0]: the match at the leftmost
    position that has one; [i] is the position of [s] in the input. *)
Fixpoint execFrom (re : matcher) (i : nat) (s : string) : option result :=
  match re s with
  | Some g =>
      Some (mkResult i (Str.take (String.length s - String.length (after g)) s)
                     (g1 g) (g2 g))
  | None =>
      match s with
      | EmptyString => None
      | String _ s' => execFrom re (S i) s'
      end
  end.

Definition exec (re : matcher) (s : string) : option result := execFrom re 0 s.

(** [s.match(re)] for an expression anchored with ^ (and no g flag):
    only position 0 is tried. *)
Definition matchAnchored (re : matcher) (s : string) : option result :=
  match re s with
  | Some g =>
      Some (mkResult 0 (Str.take (String.length s - String.length (after g)) s)
                     (g1 g) (g2 g))
  | None => None
  end.

End Re.

(* ------------------------------------------------------------------ *)
(** ** Data model of the forward pipeline *)

(** The five inline constructs; [annotation_name] is the string the
    source uses for each. *)
Inductive construct := Bold | Italic | Strikethrough | Code | Link.

Definition annotation_name (a : construct) : string :=
  match a with
  | Bold => "bold"
  | Italic => "italic"
  | Strikethrough => "strikethrough"
  | Code => "code"
  | Link => "link"
  end.

(** The optional field [link?: { url: string } | null]. *)
Inductive linkField :=
| LinkAbsent
| LinkNull
| LinkUrl (url : string).

(** [text: { content; link? }] *)
Record TextField := mkText { content : string; link : linkField }.

(** interface NotionRichText; [type: 'text'] is constant.  [annotations]
    is [None] when the field is absent, otherwise the keys that are set
    to [true]. *)
Record NotionRichText := mkRichText
  { text : TextField; annotations : option (list construct) }.

(** [{ type: 'text', text: { content: c } }] *)
Definition plainRun (c : string) : NotionRichText :=
  mkRichText (mkText c LinkAbsent) None.

(** The blocks [lineToBlock] and [markdownToBlocks] build. *)
Inductive NotionBlock :=
| RichTextBlock (type : string) (rich_text : list NotionRichText)
    (* { object, type, [type]: { rich_text } } *)
| ToDoBlock (rich_text : list NotionRichText) (checked : bool)
| CodeBlock (rich_text : list NotionRichText) (language : string)
| DividerBlock.

Definition block_type (b : NotionBlock) : string :=
  match b with
  | RichTextBlock t _ => t
  | ToDoBlock _ _ => "to_do"
  | CodeBlock _ _ => "code"
  | DividerBlock => "divider"
  end.

(* ------------------------------------------------------------------ *)
(** ** Inline scanner: parseInlineFormatting *)

Definition patterns : list (Re.matcher * construct) :=
  [ (Re.delimited "**" "**", Bold);
    (Re.delimited "*" "*", Italic);
    (Re.delimited "~~" "~~", Strikethrough);
    (Re.delimited "`" "`", Code);
    (Re.linkRe, Link) ].

(** The local [earliestMatch]; [mlength] is its [length] field. *)
Record candidate := mkCandidate
  { index : nat; mlength : nat; mcontent : string;
    annotation : construct; url : option string }.

Definition candidateOf (annotation : construct) (m : Re.result) : candidate :=
  match annotation with
  | Link => mkCandidate (Re.index m) (String.length (Re.whole m)) (Re.group1 m)
                        annotation (Re.group2 m)
  | _ => mkCandidate (Re.index m) (String.length (Re.whole m)) (Re.group1 m)
                     annotation None
  end.

(** One turn of [for (const { regex, annotation } of patterns)]. *)
Definition consider (remaining : string) (earliestMatch : option candidate)
           (p : Re.matcher * construct) : option candidate :=
  match Re.exec (fst p) remaining with
  | Some m =>
      match earliestMatch with
      | None => Some (candidateOf (snd p) m)
      | Some e =>
          if Nat.ltb (Re.index m) (index e) then Some (candidateOf (snd p) m)
          else earliestMatch
      end
  | None => earliestMatch
  end.

Definition findEarliest (remaining : string) : option candidate :=
  fold_left (consider remaining) patterns None.

(** The formatted run pushed for a match. *)
Definition richTextOf (e : candidate) : NotionRichText :=
  mkRichText
    (mkText (mcontent e)
            (match url e with
             | Some u => if Str.isEmpty u then LinkNull else LinkUrl u
             | None => LinkNull
             end))
    (Some (match annotation e with
           | Link => []
           | a => [a]
           end)).

(** The [while (remaining.length > 0)] loop; the runs pushed to [result]
    are returned in the order they are pushed.  Every turn that does not
    leave the loop shortens [remaining], so the loop body runs at most
    [length text] times; [fuel] bounds the number of turns and [None]
    means the bound was hit (it never is, see [scan_fuel]). *)
Fixpoint scan (fuel : nat) (remaining : string) : option (list NotionRichText) :=
  match fuel with
  | O => None
  | S fuel' =>
      if Str.isEmpty remaining then Some []
      else
        match findEarliest remaining with
        | Some e =>
            match scan fuel' (Str.drop (index e + mlength e) remaining) with
            | Some rest =>
                Some ((if Nat.ltb 0 (index e)
                       then [plainRun (Str.take (index e) remaining)]
                       else [])
                        ++ richTextOf e :: rest)%list
            | None => None
            end
        | None => Some [plainRun remaining]
        end
  end.

Definition parseInlineFormatting (text : string) : list NotionRichText :=
  let result :=
    match scan (S (String.length text)) text with
    | Some r => r
    | None => []
    end in
  match result with
  | [] => [plainRun text]
  | _ => result
  end.

(* ------------------------------------------------------------------ *)
(** ** Line classifier: lineToBlock *)

Definition lineToBlock (line : string) : option NotionBlock :=
  let trimmed := Str.trim line in
  if Str.isEmpty trimmed then None
  else if Str.startsWith trimmed "# " then
    Some (RichTextBlock "heading_1" (parseInlineFormatting (Str.drop 2 trimmed)))
  else if Str.startsWith trimmed "## " then
    Some (RichTextBlock "heading_2" (parseInlineFormatting (Str.drop 3 trimmed)))
  else if Str.startsWith trimmed "### " then
    Some (RichTextBlock "heading_3" (parseInlineFormatting (Str.drop 4 trimmed)))
  else if Str.startsWith trimmed "- [ ] " || Str.startsWith trimmed "- [x] " then
    let checked := Str.startsWith trimmed "- [x] " in
    let content := Str.drop 6 trimmed in
    Some (ToDoBlock (parseInlineFormatting content) checked)
  else if Str.startsWith trimmed "- " || Str.startsWith trimmed "* " then
    Some (RichTextBlock "bulleted_list_item"
                        (parseInlineFormatting (Str.drop 2 trimmed)))
  else
    match Re.matchAnchored Re.numberedRe trimmed with
    | Some numberedMatch =>
        Some (RichTextBlock "numbered_list_item"
                (parseInlineFormatting
                   (match Re.group2 numberedMatch with
                    | Some item => item
                    | None => EmptyString
                    end)))
    | None =>
        if Str.startsWith trimmed "> " then
          Some (RichTextBlock "quote" (parseInlineFormatting (Str.drop 2 trimmed)))
        else if String.eqb trimmed "---" || String.eqb trimmed "***"
                || String.eqb trimmed "___" then
          Some DividerBlock
        else
          Some (RichTextBlock "paragraph" (parseInlineFormatting trimmed))
    end.

(* ------------------------------------------------------------------ *)
(** ** Fence splitter: parseCodeBlocks *)

Record part := mkPart
  { pcontent : string; isCode : bool; planguage : option string }.

(** The mutable locals of [parseCodeBlocks]. *)
Record splitter := mkSplitter
  { parts : list part;
    inCodeBlock : bool;
    codeContent : list string;
    codeLanguage : string;
    textContent : list string }.

(** [x || 'plain text'] on a string. *)
Definition orPlainText (x : string) : string :=
  if Str.isEmpty x then "plain text" else x.

Definition isNil {A} (l : list A) : bool :=
  match l with [] => true | _ => false end.

(** The body of [for (const line of lines)]. *)
Definition splitStep (st : splitter) (line : string) : splitter :=
  if Str.startsWith line "```" then
    if inCodeBlock st then
      mkSplitter
        (parts st ++ [mkPart (Str.join Str.nl (codeContent st)) true
                             (Some (orPlainText (codeLanguage st)))])%list
        false [] EmptyString (textContent st)
    else
      mkSplitter
        (if isNil (textContent st) then parts st
         else (parts st ++ [mkPart (Str.join Str.nl (textContent st)) false None])%list)
        true (codeContent st) (Str.trim (Str.drop 3 line))
        (if isNil (textContent st) then textContent st else [])
  else if inCodeBlock st then
    mkSplitter (parts st) (inCodeBlock st) (codeContent st ++ [line])%list
               (codeLanguage st) (textContent st)
  else
    mkSplitter (parts st) (inCodeBlock st) (codeContent st)
               (codeLanguage st) (textContent st ++ [line])%list.

Definition splitInit : splitter := mkSplitter [] false [] EmptyString [].

(** The two flushes after the loop. *)
Definition splitFinish (st : splitter) : list part :=
  let parts1 :=
    if isNil (textContent st) then parts st
    else (parts st ++ [mkPart (Str.join Str.nl (textContent st)) false None])%list in
  if isNil (codeContent st) then parts1
  else (parts1 ++ [mkPart (Str.join Str.nl (codeContent st)) true
                          (Some (orPlainText (codeLanguage st)))])%list.

(** The loop over [lines] followed by the flushes. *)
Definition splitLines (lines : list string) : list part :=
  splitFinish (fold_left splitStep lines splitInit).

Definition parseCodeBlocks (markdown : string) : list part :=
  splitLines (Str.split_nl markdown).

(* ------------------------------------------------------------------ *)
(** ** markdownToBlocks *)

(** The blocks one part contributes. *)
Definition partBlocks (p : part) : list NotionBlock :=
  if isCode p then
    [CodeBlock [plainRun (pcontent p)]
               (match planguage p with
                | Some l => orPlainText l
                | None => "plain text"
                end)]
  else
    flat_map (fun line => match lineToBlock line with
                          | Some block => [block]
                          | None => []
                          end)
             (Str.split_nl (pcontent p)).

Definition markdownToBlocks (markdown : string) : list NotionBlock :=
  flat_map partBlocks (parseCodeBlocks markdown).

(* ------------------------------------------------------------------ *)
(** ** JavaScript values of the reverse pipeline

    [blocksToMarkdown] and [blocksToPlainText] take [unknown[]] and probe
    it with property reads, so their input is modelled as untyped values:
    what [JSON.parse] can produce, and the functions a property read can
    find on a prototype.  Numbers are the integers that [JSON.parse] and
    [ToString] keep exact.  An object lists its own properties; a key
    listed twice stands for its first binding. *)

Module Js.

#[local] Set Warnings "-register-all".

Inductive value :=
| VUndefined
| VNull
| VBool (b : bool)
| VNumber (z : Z)
| VString (s : string)
| VArray (items : list value)
| VObject (props : list (string * value))
| VFunction (name : string).

(** A call either returns or throws; the only exception these functions
    can raise is a TypeError. *)
Inductive completion (A : Type) :=
| Return (a : A)
| ThrowTypeError.
Arguments Return {A} a.
Arguments ThrowTypeError {A}.

Definition bind {A B} (c : completion A) (k : A -> completion B)
  : completion B :=
  match c with
  | Return a => k a
  | ThrowTypeError => ThrowTypeError
  end.

Fixpoint mapM {A B} (f : A -> completion B) (l : list A)
  : completion (list B) :=
  match l with
  | [] => Return []
  | x :: l' =>
      bind (f x) (fun y => bind (mapM f l') (fun ys => Return (y :: ys)))
  end.

Definition nullish (v : value) : bool :=
  match v with VUndefined | VNull => true | _ => false end.

(** ToBoolean *)
Definition truthy (v : value) : bool :=
  match v with
  | VUndefined | VNull => false
  | VBool b => b
  | VNumber z => negb (Z.eqb z 0)
  | VString s => negb (Str.isEmpty s)
  | VArray _ | VObject _ | VFunction _ => true
  end.

Definition isArray (v : value) : bool :=
  match v with VArray _ => true | _ => false end.

Fixpoint lookup (k : string) (props : list (string * value)) : option value :=
  match props with
  | [] => None
  | (k', v) :: props' => if String.eqb k k' then Some v else lookup k props'
  end.

Definition mem (k : string) (l : list string) : bool :=
  existsb (String.eqb k) l.

(** The properties of Object.prototype. *)
Definition objectPrototype : list string :=
  [ "constructor"; "hasOwnProperty"; "isPrototypeOf"; "propertyIsEnumerable";
    "toLocaleString"; "toString"; "valueOf";
    "__defineGetter__"; "__defineSetter__"; "__lookupGetter__";
    "__lookupSetter__" ].

(** The methods of String.prototype that carry a name the converter
    reads: [annotations?.bold] and [text?.link]. *)
Definition stringPrototype : list string := [ "bold"; "link" ].

(** [v.k] and [v[k]], for the keys the converter reads: the fixed names
    in its text and, on a block, the string of its [type].  Reading a
    property of undefined or null throws; an own property wins; then
    the prototypes answer with a function ([__proto__] with the
    prototype object); anything else is undefined. *)
Definition get (v : value) (k : string) : completion value :=
  match v with
  | VUndefined | VNull => ThrowTypeError
  | VObject props =>
      match lookup k props with
      | Some x => Return x
      | None =>
          if mem k objectPrototype then Return (VFunction k)
          else if String.eqb k "__proto__" then Return (VObject [])
          else Return VUndefined
      end
  | VString _ =>
      if mem k stringPrototype then Return (VFunction k)
      else Return VUndefined
  | VBool _ | VNumber _ | VArray _ | VFunction _ => Return VUndefined
  end.

(** [v?.k] *)
Definition optGet (v : value) (k : string) : completion value :=
  if nullish v then Return VUndefined else get v k.

Definition decimal (z : Z) : string := NilZero.string_of_int (Z.to_int z).

Definition sequence {A} (l : list (completion A)) : completion (list A) :=
  mapM (fun c => c) l.

(** ToString, which template literals, [+] on a string, [join] and
    property keys apply.  An object prints through the inherited
    [toString]; an own property of that name hides it and, not being
    callable, makes the conversion throw. *)
Fixpoint toString (v : value) : completion string :=
  match v with
  | VUndefined => Return "undefined"
  | VNull => Return "null"
  | VBool true => Return "true"
  | VBool false => Return "false"
  | VNumber z => Return (decimal z)
  | VString s => Return s
  | VArray items =>
      bind (sequence
              (map (fun x => if nullish x then Return EmptyString
                             else toString x) items))
           (fun l => Return (Str.join "," l))
  | VObject props =>
      match lookup "toString" props with
      | Some _ => ThrowTypeError
      | None => Return "[object Object]"
      end
  | VFunction name => Return ("function " ++ name ++ "() { [native code] }")
  end.

(** [a.join(sep)] on an array of values. *)
Definition joinValues (sep : string) (a : list value) : completion string :=
  bind (mapM (fun x => if nullish x then Return EmptyString else toString x) a)
       (fun l => Return (Str.join sep l)).

End Js.

Import Js.

Declare Scope js_scope.
Notation "x <- c ;; k" := (Js.bind c (fun x => k))
  (at level 61, c at next level, right associativity) : js_scope.
Open Scope js_scope.

(* ------------------------------------------------------------------ *)
(** ** Run renderer: richTextToMarkdown *)

(** [x || ''] *)
Definition orEmpty (x : value) : value :=
  if truthy x then x else VString EmptyString.

(** [if (flag) text = `l${text}r`] *)
Definition wrapIf (flag : value) (l r : string) (text : value)
  : completion value :=
  if truthy flag then (s <- toString text ;; Return (VString (l ++ s ++ r)))
  else Return text.

(** The arrow function mapped over the runs. *)
Definition renderRun (rt : value) : completion value :=
  t <- get rt "text" ;;
  c <- optGet t "content" ;;
  let text := orEmpty c in
  annotations <- get rt "annotations" ;;
  f <- optGet annotations "code" ;;
  text <- wrapIf f "`" "`" text ;;
  f <- optGet annotations "bold" ;;
  text <- wrapIf f "**" "**" text ;;
  f <- optGet annotations "italic" ;;
  text <- wrapIf f "*" "*" text ;;
  f <- optGet annotations "strikethrough" ;;
  text <- wrapIf f "~~" "~~" text ;;
  t <- get rt "text" ;;
  l <- optGet t "link" ;;
  u <- optGet l "url" ;;
  if truthy u then
    s <- toString text ;;
    su <- toString u ;;
    Return (VString ("[" ++ s ++ "](" ++ su ++ ")"))
  else Return text.

Definition richTextToMarkdown (richText : value) : completion string :=
  match richText with
  | VArray items =>
      texts <- mapM renderRun items ;;
      joinValues EmptyString texts
  | _ => Return EmptyString
  end.

(* ------------------------------------------------------------------ *)
(** ** Block renderer: blocksToMarkdown *)

(** [prefix + richTextToMarkdown((b[key]).rich_text)] *)
Definition prefixed (b : value) (key prefix : string) : completion (list string) :=
  payload <- get b key ;;
  rich_text <- get payload "rich_text" ;;
  s <- richTextToMarkdown rich_text ;;
  Return [prefix ++ s].

(** The strings one block pushes to [lines]. *)
Definition blockLines (b : value) : completion (list string) :=
  type <- get b "type" ;;
  match type with
  | VString "paragraph" => prefixed b "paragraph" EmptyString
  | VString "heading_1" => prefixed b "heading_1" "# "
  | VString "heading_2" => prefixed b "heading_2" "## "
  | VString "heading_3" => prefixed b "heading_3" "### "
  | VString "bulleted_list_item" => prefixed b "bulleted_list_item" "- "
  | VString "numbered_list_item" => prefixed b "numbered_list_item" "1. "
  | VString "to_do" =>
      todo <- get b "to_do" ;;
      c <- get todo "checked" ;;
      let checked := if truthy c then "x" else " " in
      rich_text <- get todo "rich_text" ;;
      s <- richTextToMarkdown rich_text ;;
      Return [("- [" ++ checked ++ "] ") ++ s]
  | VString "quote" => prefixed b "quote" "> "
  | VString "code" =>
      code <- get b "code" ;;
      l <- get code "language" ;;
      lang <- toString (orEmpty l) ;;
      rich_text <- get code "rich_text" ;;
      s <- richTextToMarkdown rich_text ;;
      Return ["```" ++ lang; s; "```"]
  | VString "divider" => Return ["---"]
  | _ =>
      key <- toString type ;;
      payload <- get b key ;;
      if truthy payload then
        rich_text <- get payload "rich_text" ;;
        if truthy rich_text then
          s <- richTextToMarkdown rich_text ;;
          Return [s]
        else Return []
      else Return []
  end.

Definition blocksToMarkdown (blocks : list value) : completion string :=
  lines <- mapM blockLines blocks ;;
  Return (Str.join (Str.nl ++ Str.nl) (concat lines)).

(* ------------------------------------------------------------------ *)
(** ** Plain-text extractor: blocksToPlainText *)

(** [rt => rt.text?.content || ''] *)
Definition runContent (rt : value) : completion value :=
  t <- get rt "text" ;;
  c <- optGet t "content" ;;
  Return (orEmpty c).

(** The strings one block pushes to [lines]: one or none. *)
Definition blockText (b : value) : completion (list string) :=
  type <- get b "type" ;;
  key <- toString type ;;
  blockContent <- get b key ;;
  rich_text <- optGet blockContent "rich_text" ;;
  if truthy rich_text then
    match rich_text with
    | VArray richText =>
        contents <- mapM runContent richText ;;
        text <- joinValues EmptyString contents ;;
        Return (if Str.isEmpty text then [] else [text])
    | _ => ThrowTypeError     (* richText.map is not a function *)
    end
  else Return [].

Definition blocksToPlainText (blocks : list value) : completion string :=
  lines <- mapM blockText blocks ;;
  Return (Str.join Str.nl (concat lines)).

(* ------------------------------------------------------------------ *)
(** ** The forward pipeline's records as JavaScript values *)

Definition linkProps (l : linkField) : list (string * value) :=
  match l with
  | LinkAbsent => []
  | LinkNull => [("link", VNull)]
  | LinkUrl u => [("link", VObject [("url", VString u)])]
  end.

Definition annotationsProps (a : option (list construct))
  : list (string * value) :=
  match a with
  | None => []
  | Some keys =>
      [("annotations",
        VObject (map (fun k => (annotation_name k, VBool true)) keys))]
  end.

Definition richTextValue (rt : NotionRichText) : value :=
  VObject (("type", VString "text")
             :: ("text", VObject (("content", VString (content (text rt)))
                                    :: linkProps (link (text rt))))
             :: annotationsProps (annotations rt)).

Definition richTextArray (l : list NotionRichText) : value :=
  VArray (map richTextValue l).

Definition blockValue (b : NotionBlock) : value :=
  match b with
  | RichTextBlock type rich_text =>
      VObject [("object", VString "block"); ("type", VString type);
               (type, VObject [("rich_text", richTextArray rich_text)])]
  | ToDoBlock rich_text checked =>
      VObject [("object", VString "block"); ("type", VString "to_do");
               ("to_do", VObject [("rich_text", richTextArray rich_text);
                                  ("checked", VBool checked)])]
  | CodeBlock rich_text language =>
      VObject [("object", VString "block"); ("type", VString "code");
               ("code", VObject [("rich_text", richTextArray rich_text);
                                 ("language", VString language)])]
  | DividerBlock =>
      VObject [("object", VString "block"); ("type", VString "divider");
               ("divider", VObject [])]
  end.

(* ------------------------------------------------------------------ *)
(** ** Identifiers: formatWithDashes and extractNotionId (notion-client)

    The regular expressions of the identifier helpers use counted
    repetition, an optional character and an alternation; they are
    embedded with the same kind of backtracking matchers as above. *)

Module Rx.

Section Combinators.
Context {R : Type}.

(** [(C{n})]: exactly [n] characters of class [p]; [acc] is what the
    enclosing group has captured so far. *)
Fixpoint times (n : nat) (p : ascii -> bool) (k : string -> string -> option R)
         (acc : string) (s : string) : option R :=
  match n with
  | O => k acc s
  | S n' =>
      match s with
      | EmptyString => None
      | String c s' =>
          if p c then times n' p k (acc ++ String c EmptyString) s' else None
      end
  end.

(** [x?]: the character [x] if it is there and what follows matches,
    otherwise nothing. *)
Definition opt (x : ascii) (k : string -> option R) (s : string) : option R :=
  match s with
  | String c s' =>
      if Ascii.eqb c x then
        match k s' with
        | Some r => Some r
        | None => k s
        end
      else k s
  | EmptyString => k s
  end.

(** One character of class [p]. *)
Definition char (p : ascii -> bool) (k : string -> option R) (s : string)
  : option R :=
  match s with
  | String c s' => if p c then k s' else None
  | EmptyString => None
  end.

(** [a|b]: [a] first, [b] when [a] and what follows it fail. *)
Definition alt (a b : (string -> option R) -> string -> option R)
           (k : string -> option R) (s : string) : option R :=
  match a k s with
  | Some r => Some r
  | None => b k s
  end.

(** [$] without the m flag. *)
Definition atEnd (k : string -> option R) (s : string) : option R :=
  if Str.isEmpty s then k s else None.

End Combinators.

(** [[a-f0-9]] *)
Definition hexLower (c : ascii) : bool :=
  let n := nat_of_ascii c in
  (Nat.leb 48 n && Nat.leb n 57) || (Nat.leb 97 n && Nat.leb n 102).

(** [[a-f0-9]] under the i flag: the letters in either case. *)
Definition hexAny (c : ascii) : bool :=
  let n := nat_of_ascii c in
  hexLower c || (Nat.leb 65 n && Nat.leb n 70).

(** The leftmost match of an expression without ^: the text before it,
    what the matcher returns, and the text after it. *)
Fixpoint search {G : Type} (re : string -> option (G * string)) (s : string)
  : option (string * G * string) :=
  match re s with
  | Some (g, rest) => Some (EmptyString, g, rest)
  | None =>
      match s with
      | EmptyString => None
      | String c s' =>
          match search re s' with
          | Some (pre, g, rest) => Some (String c pre, g, rest)
          | None => None
          end
      end
  end.

(** [re.test(s)] for an expression anchored with ^. *)
Definition test (re : string -> option unit) (s : string) : bool :=
  match re s with
  | Some _ => true
  | None => false
  end.

End Rx.

Module Id.
Import Rx.

(** One code unit of [toLowerCase]: A-Z, and in the Latin-1 range the
    capital letters 192-222 except the multiplication sign 215. *)
Definition lowerChar (c : ascii) : ascii :=
  let n := nat_of_ascii c in
  if (Nat.leb 65 n && Nat.leb n 90)
     || (Nat.leb 192 n && Nat.leb n 222 && negb (Nat.eqb n 215))
  then ascii_of_nat (n + 32)
  else c.

(** [s.toLowerCase()] *)
Fixpoint toLowerCase (s : string) : string :=
  match s with
  | EmptyString => EmptyString
  | String c s' => String (lowerChar c) (toLowerCase s')
  end.

(** [s.replace(/-/g, '')] *)
Fixpoint removeDashes (s : string) : string :=
  match s with
  | EmptyString => EmptyString
  | String c s' =>
      if Ascii.eqb c "-"%char then removeDashes s' else String c (removeDashes s')
  end.

(** [/([a-f0-9]{8})([a-f0-9]{4})([a-f0-9]{4})([a-f0-9]{4})([a-f0-9]{12})/];
    the five groups are returned in order. *)
Definition groupsRe (s : string) : option (list string * string) :=
  times 8 hexLower
    (fun g1 =>
       times 4 hexLower
         (fun g2 =>
            times 4 hexLower
              (fun g3 =>
                 times 4 hexLower
                   (fun g4 =>
                      times 12 hexLower
                        (fun g5 rest => Some ([g1; g2; g3; g4; g5], rest))
                        EmptyString)
                   EmptyString)
              EmptyString)
         EmptyString)
    EmptyString s.

(** The replacement ['$1-$2-$3-$4-$5']. *)
Definition dashedGroups (groups : list string) : string :=
  Str.join "-" groups.

Definition formatWithDashes (id : string) : string :=
  let clean := removeDashes (toLowerCase id) in
  match search groupsRe clean with
  | Some (pre, groups, rest) => pre ++ dashedGroups groups ++ rest
  | None => clean
  end.

(** [/^[a-f0-9]{8}-?[a-f0-9]{4}-?[a-f0-9]{4}-?[a-f0-9]{4}-?[a-f0-9]{12}$/i] *)
Definition uuidPattern (s : string) : option unit :=
  times 8 hexAny
    (fun _ =>
       opt "-"%char
         (times 4 hexAny
            (fun _ =>
               opt "-"%char
                 (times 4 hexAny
                    (fun _ =>
                       opt "-"%char
                         (times 4 hexAny
                            (fun _ =>
                               opt "-"%char
                                 (times 12 hexAny
                                    (fun _ => atEnd (fun _ => Some tt))
                                    EmptyString))
                            EmptyString))
                    EmptyString))
            EmptyString))
    EmptyString s.

(** [/^[a-f0-9]{32}$/i] *)
Definition hex32Pattern (s : string) : option unit :=
  times 32 hexAny (fun _ => atEnd (fun _ => Some tt)) EmptyString s.

(** [/[/-]([a-f0-9]{32})(?:\?|$|#)/i]; group 1 is returned. *)
Definition urlWithTitlePattern (s : string) : option (string * string) :=
  char (fun c => Ascii.eqb c "/"%char || Ascii.eqb c "-"%char)
       (times 32 hexAny
          (fun g1 =>
             alt (char (fun c => Ascii.eqb c "?"%char))
                 (alt atEnd (char (fun c => Ascii.eqb c "#"%char)))
                 (fun rest => Some (g1, rest)))
          EmptyString)
       s.

(** [/([a-f0-9]{8}-[a-f0-9]{4}-[a-f0-9]{4}-[a-f0-9]{4}-[a-f0-9]{12})/i];
    group 1, the whole match, is returned. *)
Definition urlPatternDashes (s : string) : option (string * string) :=
  times 8 hexAny
    (fun g =>
       Re.lit "-"
         (times 4 hexAny
            (fun g =>
               Re.lit "-"
                 (times 4 hexAny
                    (fun g =>
                       Re.lit "-"
                         (times 4 hexAny
                            (fun g =>
                               Re.lit "-"
                                 (times 12 hexAny
                                    (fun g rest => Some (g, rest))
                                    (g ++ "-")))
                            (g ++ "-")))
                    (g ++ "-")))
            (g ++ "-")))
    EmptyString s.

Definition extractNotionId (input : string) : string :=
  if test uuidPattern input then formatWithDashes input
  else if test hex32Pattern input then formatWithDashes input
  else
    match search urlWithTitlePattern input with
    | Some (_, urlMatch1, _) => formatWithDashes urlMatch1
    | None =>
        match search urlPatternDashes input with
        | Some (_, dashMatch1, _) => formatWithDashes dashMatch1
        | None => input
        end
    end.

End Id.

(* ------------------------------------------------------------------ *)
(** ** Titles: getPageTitle and getDatabaseTitle (types)

    The two helpers read the keys [properties], [type], [title],
    [plain_text], [text] and [content]; no prototype carries any of them.
    The property list of an object is taken to be in the order in which
    [Object.entries] enumerates it. *)

(** The own properties of an object, each key once. *)
Fixpoint ownProps (props : list (string * value)) : list (string * value) :=
  match props with
  | [] => []
  | (k, v) :: rest =>
      (k, v) :: filter (fun kv => negb (String.eqb k (fst kv))) (ownProps rest)
  end.

Fixpoint indexed {A} (i : nat) (l : list A) : list (string * A) :=
  match l with
  | [] => []
  | x :: rest => (Js.decimal (Z.of_nat i), x) :: indexed (S i) rest
  end.

Fixpoint chars (s : string) : list value :=
  match s with
  | EmptyString => []
  | String c rest => VString (String c EmptyString) :: chars rest
  end.

(** [Object.entries(v)]: throws on undefined and null; an array and a
    string list their elements under their indices; other primitives
    have no entries. *)
Definition objectEntries (v : value) : completion (list (string * value)) :=
  match v with
  | VUndefined | VNull => ThrowTypeError
  | VObject props => Return (ownProps props)
  | VArray items => Return (indexed 0 items)
  | VString s => Return (indexed 0 (chars s))
  | VBool _ | VNumber _ | VFunction _ => Return []
  end.

(** [v.map(f)]: only an array has a [map] that can be called. *)
Definition mapArray (v : value) (f : value -> completion value)
  : completion (list value) :=
  match v with
  | VArray items => mapM f items
  | _ => ThrowTypeError
  end.

(** [t => t.plain_text || t.text?.content || ''] *)
Definition titleItem (t : value) : completion value :=
  p <- get t "plain_text" ;;
  if truthy p then Return p
  else
    x <- get t "text" ;;
    c <- optGet x "content" ;;
    Return (orEmpty c).

(** The loop [for (const [, prop] of Object.entries(page.properties))]. *)
Fixpoint titleLoop (entries : list (string * value)) : completion string :=
  match entries with
  | [] => Return "Untitled"
  | (_, prop) :: rest =>
      type <- get prop "type" ;;
      match type with
      | VString "title" =>
          title <- get prop "title" ;;
          texts <- mapArray title titleItem ;;
          joinValues EmptyString texts
      | _ => titleLoop rest
      end
  end.

Definition getPageTitle (page : value) : completion string :=
  properties <- get page "properties" ;;
  entries <- objectEntries properties ;;
  titleLoop entries.

Definition getDatabaseTitle (database : value) : completion string :=
  title <- get database "title" ;;
  texts <- mapArray title titleItem ;;
  s <- joinValues EmptyString texts ;;
  Return (if Str.isEmpty s then "Untitled" else s).

(* ------------------------------------------------------------------ *)
(** ** Block tools: appendBlocks and updateBlock (tools/blocks)

    The tools are asynchronous: they await the client and go on with its
    answer.  A tool is embedded as the tree of its requests: it is done
    with a result, or it issues one request and continues with the
    response.  The client itself (HTTP, rate limit) stays outside; its
    [request] never throws and resolves to a [NotionResponse]. *)

(** interface NotionResponse; an absent field is [VUndefined]. *)
Record NotionResponse := mkResponse
  { success : bool; data : value; error : value }.

Inductive io (A : Type) :=
| Done (a : A)
| Request (method endpoint : string) (body : value)
          (k : NotionResponse -> io A).
Arguments Done {A} a.
Arguments Request {A} method endpoint body k.

(** [x || fallback] *)
Definition orElse (x : value) (fallback : string) : value :=
  if truthy x then x else VString fallback.

(** [{ success: false, error }] *)
Definition failure (error : value) : value :=
  VObject [("success", VBool false); ("error", error)].

(** [!response.success || !response.data] *)
Definition failed (response : NotionResponse) : bool :=
  negb (success response) || negb (truthy (data response)).

(** [block => ({ id: block.id, type: block.type })] *)
Definition idAndType (block : value) : completion value :=
  id <- get block "id" ;;
  type <- get block "type" ;;
  Return (VObject [("id", id); ("type", type)]).

(** [a.length], for what the tools take the length of. *)
Definition lengthOf (v : value) : completion value :=
  match v with
  | VArray items => Return (VNumber (Z.of_nat (List.length items)))
  | VString s => Return (VNumber (Z.of_nat (String.length s)))
  | _ => get v "length"
  end.

(** What [appendBlocks] returns once the PATCH is answered. *)
Definition appended (response : NotionResponse) : completion value :=
  if failed response then
    Return (failure (orElse (error response) "Failed to append blocks"))
  else
    results <- get (data response) "results" ;;
    blocks <- mapArray results idAndType ;;
    results' <- get (data response) "results" ;;
    count <- lengthOf results' ;;
    Return (VObject [("success", VBool true); ("blocks", VArray blocks);
                     ("block_count", count)]).

Definition appendBlocks (parent_id content : string) : io (completion value) :=
  let parentId := Id.extractNotionId parent_id in
  let blocks := markdownToBlocks content in
  match blocks with
  | [] => Done (Return (failure (VString "No valid content to append")))
  | _ =>
      Request "PATCH" ("/blocks/" ++ parentId ++ "/children")
              (VObject [("children", VArray (map blockValue blocks))])
              (fun response => Done (appended response))
  end.

(** [blockType === t && newBlock.type === t] *)
Definition bothOfType (blockType : value) (newBlock : NotionBlock) (t : string)
  : bool :=
  match blockType with
  | VString s => String.eqb s t
  | _ => false
  end && String.eqb (block_type newBlock) t.

(** [updateBody.t = (newBlock as Record<string, unknown>).t] *)
Definition takeOver (newBlock : NotionBlock) (t : string) : completion value :=
  payload <- get (blockValue newBlock) t ;;
  Return (VObject [(t, payload)]).

(** The body [updateBlock] builds from the type of the current block, the
    first block of the new content and the new content itself.  In the
    last branch the key is computed: assigning under the key [__proto__]
    sets the prototype and leaves the object without own property. *)
Definition updateBody (blockType : value) (newBlock : NotionBlock)
           (content : string) : completion value :=
  if bothOfType blockType newBlock "paragraph" then
    takeOver newBlock "paragraph"
  else if bothOfType blockType newBlock "heading_1" then
    takeOver newBlock "heading_1"
  else if bothOfType blockType newBlock "heading_2" then
    takeOver newBlock "heading_2"
  else if bothOfType blockType newBlock "heading_3" then
    takeOver newBlock "heading_3"
  else if bothOfType blockType newBlock "bulleted_list_item" then
    takeOver newBlock "bulleted_list_item"
  else if bothOfType blockType newBlock "numbered_list_item" then
    takeOver newBlock "numbered_list_item"
  else if bothOfType blockType newBlock "to_do" then
    takeOver newBlock "to_do"
  else if bothOfType blockType newBlock "quote" then
    takeOver newBlock "quote"
  else if bothOfType blockType newBlock "code" then
    takeOver newBlock "code"
  else
    key <- toString blockType ;;
    if String.eqb key "__proto__" then Return (VObject [])
    else
      Return (VObject [(key, VObject [("rich_text",
                                       richTextArray [plainRun content])])]).

(** What [updateBlock] returns once the PATCH is answered. *)
Definition updated (response : NotionResponse) : completion value :=
  if failed response then
    Return (failure (orElse (error response) "Failed to update block"))
  else
    id <- get (data response) "id" ;;
    type <- get (data response) "type" ;;
    last_edited_time <- get (data response) "last_edited_time" ;;
    Return (VObject [("success", VBool true);
                     ("block", VObject [("id", id); ("type", type);
                                        ("last_edited_time", last_edited_time)])]).

(** [updateBlock] from the answer to its GET on. *)
Definition updateFrom (blockId content : string) (getResponse : NotionResponse)
  : io (completion value) :=
  if failed getResponse then
    Done (Return (failure (orElse (error getResponse)
                                  "Failed to get block for update")))
  else
    match get (data getResponse) "type" with
    | ThrowTypeError => Done ThrowTypeError
    | Return blockType =>
        match markdownToBlocks content with
        | [] => Done (Return (failure (VString "Invalid content provided")))
        | newBlock :: _ =>
            match updateBody blockType newBlock content with
            | ThrowTypeError => Done ThrowTypeError
            | Return body =>
                Request "PATCH" ("/blocks/" ++ blockId) body
                        (fun response => Done (updated response))
            end
        end
    end.

Definition updateBlock (block_id content : string) : io (completion value) :=
  let blockId := Id.extractNotionId block_id in
  Request "GET" ("/blocks/" ++ blockId) VUndefined (updateFrom blockId content).

(* ================================================================== *)
(** * Vocabulary of the statements *)

(* ------------------------------------------------------------------ *)
(** ** Selection of the earliest match *)

(** [e] is the candidate of the pattern at position [j] of [ps], and no
    pattern of [ps] matches [remaining] further left, nor as far left from
    an earlier position of the list. *)
Definition selected (remaining : string)
           (ps : list (Re.matcher * construct)) (e : candidate) : Prop :=
  exists j re m,
    nth_error ps j = Some (re, annotation e) /\
    Re.exec re remaining = Some m /\
    e = candidateOf (annotation e) m /\
    forall j' re' a' m',
      nth_error ps j' = Some (re', a') ->
      Re.exec re' remaining = Some m' ->
      index e < Re.index m' \/ (index e = Re.index m' /\ j <= j').

(** No pattern of [ps] matches [remaining]. *)
Definition noneMatches (remaining : string)
           (ps : list (Re.matcher * construct)) : Prop :=
  forall j re a, nth_error ps j = Some (re, a) -> Re.exec re remaining = None.

(** What the loop over [ps] leaves in [earliestMatch]. *)
Definition selection (remaining : string)
           (ps : list (Re.matcher * construct)) (r : option candidate) : Prop :=
  match r with
  | Some e => selected remaining ps e
  | None => noneMatches remaining ps
  end.

(* ------------------------------------------------------------------ *)
(** ** Runs and the text they stand for *)

(** The delimiter each annotation is written with. *)
Definition delimiter (a : construct) : string :=
  match a with
  | Bold => "**"
  | Italic => "*"
  | Strikethrough => "~~"
  | Code => "`"
  | Link => ""
  end.

(** The text a candidate stands for in the input: what precedes it has
    length [index], the match itself has length [mlength], and the run
    pushed for it renders back to the matched text. *)
Definition splitsAt (remaining : string) (e : candidate) : Prop :=
  exists pre src post,
    remaining = pre ++ src ++ post /\
    index e = String.length pre /\
    mlength e = String.length src /\
    src <> "" /\
    renderRun (richTextValue (richTextOf e)) = Return (VString src).

(** A list of runs whose elements render to the strings [strs]. *)
Definition rendersTo (runs : list NotionRichText) (strs : list string) : Prop :=
  Forall2 (fun r s => renderRun (richTextValue r) = Return (VString s))
          runs strs.

(** The concatenation of the [content] fields of a list of runs. *)
Definition contents (runs : list NotionRichText) : string :=
  String.concat "" (map (fun r => content (text r)) runs).

(* ------------------------------------------------------------------ *)
(** ** Fences *)

(** A line that toggles the fence state. *)
Definition isFence (line : string) : bool := Str.startsWith line "```".

(** The number of fence markers among [lines]. *)
Definition fences (lines : list string) : nat :=
  List.length (filter isFence lines).

(** Outside a fence no code line is pending; inside one no prose line
    is. *)
Definition splitterInv (st : splitter) : Prop :=
  if inCodeBlock st then textContent st = [] else codeContent st = [].

(* ------------------------------------------------------------------ *)
(** ** Round trip through both pipelines *)

(** [blocksToMarkdown(markdownToBlocks(m))] *)
Definition roundTrip (m : string) : completion string :=
  blocksToMarkdown (map blockValue (markdownToBlocks m)).

(** The input has no line feed. *)
Fixpoint singleLine (m : string) : bool :=
  match m with
  | EmptyString => true
  | String c m' => negb (Ascii.eqb c Str.LF) && singleLine m'
  end.

(** A numbered item, if the line is one, is written "1. " followed
    directly by its text. *)
Definition numberedFromOne (m : string) : bool :=
  match Re.matchAnchored Re.numberedRe m with
  | Some r =>
      String.eqb m ("1. " ++ match Re.group2 r with
                             | Some item => item
                             | None => ""
                             end)
  | None => true
  end.

(** The number of annotated or linked runs a block holds. *)
Definition annotatedRuns (b : NotionBlock) : nat :=
  let count l :=
    List.length (filter (fun r => match annotations r with
                                  | Some _ => true
                                  | None => false
                                  end) l) in
  match b with
  | RichTextBlock _ l | ToDoBlock l _ | CodeBlock l _ => count l
  | DividerBlock => 0
  end.

(* ------------------------------------------------------------------ *)
(** ** Plain-text extraction, in the words of its contract *)

(** The [content] of a run; annotations and links are ignored. *)
Definition runText (rt : value) : string :=
  match rt with
  | VObject props =>
      match lookup "text" props with
      | Some (VObject fields) =>
          match lookup "content" fields with
          | Some (VString c) => c
          | _ => ""
          end
      | _ => ""
      end
  | _ => ""
  end.

(** The [rich_text] payload a block carries under the name of its type,
    if it carries one. *)
Definition payloadRuns (b : value) : option (list value) :=
  match b with
  | VObject props =>
      match lookup "type" props with
      | Some (VString type) =>
          match lookup type props with
          | Some (VObject payload) =>
              match lookup "rich_text" payload with
              | Some (VArray runs) => Some runs
              | _ => None
              end
          | _ => None
          end
      | _ => None
      end
  | _ => None
  end.

(** One line per block that carries a payload, empty lines left out. *)
Definition plainLines (blocks : list value) : list string :=
  flat_map (fun b =>
              match payloadRuns b with
              | Some runs =>
                  let line := String.concat "" (map runText runs) in
                  if Str.isEmpty line then [] else [line]
              | None => []
              end)
           blocks.

(** A run-like record: an object whose [text], if present and not null,
    is an object whose [content], if present and not null, is a
    string. *)
Definition runLike (rt : value) : bool :=
  match rt with
  | VObject props =>
      match lookup "text" props with
      | None | Some VNull => true
      | Some (VObject fields) =>
          match lookup "content" fields with
          | None | Some VNull | Some (VString _) => true
          | _ => false
          end
      | _ => false
      end
  | _ => false
  end.

(** A block-like record: an object with a string [type]; the payload
    under that name may be missing or null, and otherwise is an object
    whose [rich_text], if present and not null, is an array of run-like
    records. *)
Definition blockLike (b : value) : bool :=
  match b with
  | VObject props =>
      match lookup "type" props with
      | Some (VString type) =>
          match lookup type props with
          | None | Some VNull => true
          | Some (VObject payload) =>
              match lookup "rich_text" payload with
              | None | Some VNull => true
              | Some (VArray runs) => forallb runLike runs
              | _ => false
              end
          | _ => false
          end
      | _ => false
      end
  | _ => false
  end.

(* ------------------------------------------------------------------ *)
(** ** Lines and blocks *)

(** A line that carries nothing once trimmed. *)
Definition isBlank (line : string) : bool := Str.isEmpty (Str.trim line).

(** The block a line contributes, as a list: one or none. *)
Definition lineBlocks (line : string) : list NotionBlock :=
  match lineToBlock line with
  | Some block => [block]
  | None => []
  end.

(** The types of the blocks that hold nothing but runs. *)
Definition richTextTypes : list string :=
  [ "paragraph"; "heading_1"; "heading_2"; "heading_3";
    "bulleted_list_item"; "numbered_list_item"; "quote" ].

(** The runs a block holds. *)
Definition blockRuns (b : NotionBlock) : list NotionRichText :=
  match b with
  | RichTextBlock _ l | ToDoBlock l _ | CodeBlock l _ => l
  | DividerBlock => []
  end.

(** The splitter state [st] with the parts [ps] emitted before it. *)
Definition withParts (ps : list part) (st : splitter) : splitter :=
  mkSplitter (ps ++ parts st)%list (inCodeBlock st) (codeContent st)
             (codeLanguage st) (textContent st).

(* ------------------------------------------------------------------ *)
(** ** Shapes of the runs the scanner returns *)

(** Every character of [s] is in the class [p]. *)
Fixpoint allChars (p : ascii -> bool) (s : string) : bool :=
  match s with
  | EmptyString => true
  | String c s' => p c && allChars p s'
  end.

(** A run without annotations. *)
Definition isPlain (r : NotionRichText) : bool :=
  match annotations r with
  | None => true
  | Some _ => false
  end.

(** The three kinds of run: plain text; text under exactly one
    annotation, with a null link; a link, with no annotation.  The text is
    never empty, and annotated text stays within one line. *)
Definition runShape (r : NotionRichText) : Prop :=
  (exists c, c <> "" /\ r = plainRun c) \/
  (exists a c, a <> Link /\ c <> "" /\ allChars Re.dot c = true /\
               r = mkRichText (mkText c LinkNull) (Some [a])) \/
  (exists c u, c <> "" /\ u <> "" /\
               r = mkRichText (mkText c (LinkUrl u)) (Some [])).

(** No two neighbours of the list are both plain. *)
Fixpoint noAdjacentPlain (l : list NotionRichText) : Prop :=
  match l with
  | r1 :: (r2 :: _) as rest =>
      (isPlain r1 && isPlain r2 = false) /\ noAdjacentPlain rest
  | _ => True
  end.

(* ------------------------------------------------------------------ *)
(** ** Blocks of the data model *)

(** A block as [markdownToBlocks] builds it: its runs come from the
    scanner, or, for code, are the raw body as one plain run. *)
Definition producedBlock (b : NotionBlock) : Prop :=
  match b with
  | RichTextBlock type rich_text =>
      In type richTextTypes /\ exists s, rich_text = parseInlineFormatting s
  | ToDoBlock rich_text _ => exists s, rich_text = parseInlineFormatting s
  | CodeBlock rich_text language =>
      (exists c, rich_text = [plainRun c]) /\ language <> ""
  | DividerBlock => True
  end.

(** The invariants of the data model: a known type; runs present in
    every block but a divider; a code block made of one plain run, with a
    language. *)
Definition dataModelBlock (b : NotionBlock) : Prop :=
  match b with
  | RichTextBlock type rich_text => In type richTextTypes /\ rich_text <> []
  | ToDoBlock rich_text _ => rich_text <> []
  | CodeBlock rich_text language =>
      (exists c, rich_text = [plainRun c]) /\ language <> ""
  | DividerBlock => True
  end.

(** The text of a block with all markup left out. *)
Definition blockContents (b : NotionBlock) : string :=
  contents (blockRuns b).

(** [s] is empty or starts with a character outside the class [p]. *)
Definition stopsAt (p : ascii -> bool) (s : string) : bool :=
  match s with
  | EmptyString => true
  | String c _ => negb (p c)
  end.

(* ------------------------------------------------------------------ *)
(** ** Identifiers *)

(** The five groups of hexadecimal digits of an identifier, of 8, 4, 4, 4
    and 12 characters of the class [p]. *)
Definition hexGroups (p : ascii -> bool) (a b c d e : string) : Prop :=
  (String.length a = 8 /\ allChars p a = true) /\
  (String.length b = 4 /\ allChars p b = true) /\
  (String.length c = 4 /\ allChars p c = true) /\
  (String.length d = 4 /\ allChars p d = true) /\
  (String.length e = 12 /\ allChars p e = true).

(** The groups written with dashes between them. *)
Definition dashed (a b c d e : string) : string :=
  a ++ "-" ++ b ++ "-" ++ c ++ "-" ++ d ++ "-" ++ e.

(** The canonical form of an identifier: lower-case hexadecimal digits in
    groups of 8-4-4-4-12 separated by dashes. *)
Definition canonicalId (s : string) : Prop :=
  exists a b c d e, hexGroups Rx.hexLower a b c d e /\ s = dashed a b c d e.

(** The local [clean] of [formatWithDashes]. *)
Definition clean (s : string) : string :=
  Id.removeDashes (Id.toLowerCase s).

(** A separator that may be left out. *)
Definition optionalDash (x : string) : Prop := x = "" \/ x = "-".

(** A run of 32 hexadecimal digits at the start of [s]. *)
Definition hexRun32 (s : string) : option (string * string) :=
  Rx.times 32 Rx.hexAny (fun g rest => Some (g, rest)) EmptyString s.

(* ------------------------------------------------------------------ *)
(** ** Titles *)

(** The text of one item of a title: its [plain_text] when that is a
    non-empty string, otherwise the [content] of its [text]. *)
Definition titleText (t : value) : string :=
  match t with
  | VObject props =>
      match lookup "plain_text" props with
      | Some (VString s) => if Str.isEmpty s then runText t else s
      | _ => runText t
      end
  | _ => ""
  end.

(** An item of a title as the API sends it: a run-like record whose
    [plain_text], if present and not null, is a string. *)
Definition titleItemLike (t : value) : bool :=
  match t with
  | VObject props =>
      match lookup "plain_text" props with
      | None | Some VNull | Some (VString _) => runLike t
      | _ => false
      end
  | _ => false
  end.

(** A property value that the loop of [getPageTitle] passes over: not
    undefined or null, and not of type 'title'. *)
Definition notTitle (prop : value) : bool :=
  match prop with
  | VUndefined | VNull => false
  | VObject fields =>
      match lookup "type" fields with
      | Some (VString type) => negb (String.eqb type "title")
      | _ => true
      end
  | _ => true
  end.

(** A property of type 'title' holding the items [items]. *)
Definition titleProperty (prop : value) (items : list value) : Prop :=
  exists fields,
    prop = VObject fields /\
    lookup "type" fields = Some (VString "title") /\
    lookup "title" fields = Some (VArray items).

(** The text a candidate is cut from: what precedes the match, an opening
    part, the captured text, a closing part, and the rest; the run pushed
    for it has the captured text as its content. *)
Definition encloses (remaining : string) (e : candidate) : Prop :=
  exists pre opening closing post,
    remaining
    = pre ++ opening ++ content (text (richTextOf e)) ++ closing ++ post /\
    opening <> "" /\ closing <> "" /\
    index e = String.length pre /\
    mlength e
    = String.length opening + String.length (content (text (richTextOf e)))
      + String.length closing.

(* ================================================================== *)
(** * Properties *)

(* ------------------------------------------------------------------ *)
(** ** Strings *)

Module StrFacts.
Import Str.

Lemma append_nil_r (s : string) : s ++ "" = s.
Proof. induction s as [|c s IH]; simpl; [reflexivity | now rewrite IH]. Qed.

Lemma append_assoc (a b c : string) : (a ++ b) ++ c = a ++ b ++ c.
Proof. induction a as [|x a IH]; simpl; [reflexivity | now rewrite IH]. Qed.

Lemma length_append (a b : string) :
  String.length (a ++ b) = String.length a + String.length b.
Proof. induction a as [|x a IH]; simpl; [reflexivity | now rewrite IH]. Qed.

Lemma append_snoc (a : string) (c : ascii) (b : string) :
  (a ++ String c "") ++ b = a ++ String c b.
Proof. now rewrite append_assoc. Qed.

Lemma take_drop (n : nat) (s : string) : take n s ++ drop n s = s.
Proof.
  revert s; induction n as [|n IH]; intros [|c s]; simpl; try reflexivity.
  now rewrite IH.
Qed.

Lemma take_app (a b : string) : take (String.length a) (a ++ b) = a.
Proof. induction a as [|x a IH]; simpl; [now destruct b | now rewrite IH]. Qed.

Lemma drop_app (a b : string) : drop (String.length a) (a ++ b) = b.
Proof. induction a as [|x a IH]; simpl; [reflexivity | exact IH]. Qed.

Lemma drop_add (n m : nat) (s : string) : drop (n + m) s = drop m (drop n s).
Proof.
  revert s; induction n as [|n IH]; intros s; simpl; [reflexivity|].
  destruct s as [|c s]; [now destruct m | apply IH].
Qed.

Lemma length_drop (n : nat) (s : string) :
  String.length (drop n s) = String.length s - n.
Proof.
  revert s; induction n as [|n IH]; intros [|c s]; simpl;
    try reflexivity; apply IH.
Qed.

Lemma startsWith_app (s p : string) :
  startsWith s p = true -> s = p ++ drop (String.length p) s.
Proof.
  unfold startsWith. revert s.
  induction p as [|x p IH]; intros s H.
  - reflexivity.
  - destruct s as [|c s]; simpl in H; [discriminate|].
    destruct (ascii_dec x c) as [->|]; [|discriminate].
    simpl. f_equal. now apply IH.
Qed.

Lemma startsWith_intro (p t : string) : startsWith (p ++ t) p = true.
Proof.
  unfold startsWith. induction p as [|x p IH]; simpl.
  - now destruct t.
  - destruct (ascii_dec x x); [exact IH | congruence].
Qed.

Lemma startsWith_nil (s : string) : startsWith s "" = true.
Proof. now destruct s. Qed.

Lemma isEmpty_true (s : string) : isEmpty s = true -> s = "".
Proof. destruct s; [reflexivity | discriminate]. Qed.

Lemma concat_nil_sep (x : string) (l : list string) :
  String.concat "" (x :: l) = x ++ String.concat "" l.
Proof.
  destruct l as [|y l]; simpl; [now rewrite append_nil_r | reflexivity].
Qed.

Lemma concat_nil_sep_app (l1 l2 : list string) :
  String.concat "" (l1 ++ l2) = String.concat "" l1 ++ String.concat "" l2.
Proof.
  induction l1 as [|x l1 IH]; [reflexivity|].
  rewrite <- app_comm_cons, !concat_nil_sep, IH. now rewrite append_assoc.
Qed.

End StrFacts.

(* ------------------------------------------------------------------ *)
(** ** What a regular expression match says about its input *)

Module ReFacts.
Import Str StrFacts Re.

Section Inversion.
Context {R : Type}.

Lemma lit_inv (l : string) (k : string -> option R) (s : string) (r : R) :
  lit l k s = Some r -> exists t, s = l ++ t /\ k t = Some r.
Proof.
  unfold lit. destruct (startsWith s l) eqn:E; [|discriminate].
  intros H. exists (drop (String.length l) s).
  split; [now apply startsWith_app | exact H].
Qed.

Lemma lit_intro (l : string) (k : string -> option R) (t : string) :
  lit l k (l ++ t) = k t.
Proof. unfold lit. now rewrite startsWith_intro, drop_app. Qed.

(** A successful [+] consumed a non-empty run of its class and the
    continuation succeeded right after it. *)
Lemma lazy_plus_inv (p : ascii -> bool) (k : string -> string -> option R)
      (s acc : string) (r : R) :
  lazy_plus p k acc s = Some r ->
  exists c t, s = c ++ t /\ c <> "" /\ k (acc ++ c) t = Some r.
Proof.
  revert acc. induction s as [|x s IH]; intros acc; simpl; [discriminate|].
  destruct (p x); [|discriminate].
  destruct (k (acc ++ String x "") s) eqn:K.
  - intros [= ->]. exists (String x ""), s. repeat split; [discriminate | exact K].
  - intros H. destruct (IH _ H) as (c & t & -> & _ & Hk).
    exists (String x c), t. repeat split; [discriminate|].
    now rewrite append_snoc in Hk.
Qed.

Lemma greedy_plus_inv (p : ascii -> bool) (k : string -> string -> option R)
      (s acc : string) (r : R) :
  greedy_plus p k acc s = Some r ->
  exists c t, s = c ++ t /\ c <> "" /\ k (acc ++ c) t = Some r.
Proof.
  revert acc. induction s as [|x s IH]; intros acc; simpl; [discriminate|].
  destruct (p x); [|discriminate].
  destruct (greedy_plus p k (acc ++ String x "") s) eqn:G.
  - intros [= ->]. destruct (IH _ G) as (c & t & -> & _ & Hk).
    exists (String x c), t. repeat split; [discriminate|].
    now rewrite append_snoc in Hk.
  - intros K. exists (String x ""), s. repeat split; [discriminate | exact K].
Qed.
End Inversion.

(** [/open(.+?)close/] matched [open ++ inner ++ close]. *)
Lemma delimited_inv (open close s : string) (g : groups) :
  delimited open close s = Some g ->
  g2 g = None /\ g1 g <> "" /\ s = open ++ g1 g ++ close ++ after g.
Proof.
  unfold delimited. intros H.
  apply lit_inv in H as (t & -> & H).
  apply lazy_plus_inv in H as (c & t' & -> & Hc & H).
  apply lit_inv in H as (t'' & -> & [= <-]). simpl. auto.
Qed.

(** The link expression matched [[label](url)]. *)
Lemma linkRe_inv (s : string) (g : groups) :
  linkRe s = Some g ->
  exists u, g2 g = Some u /\ u <> "" /\
            s = "[" ++ g1 g ++ "](" ++ u ++ ")" ++ after g.
Proof.
  unfold linkRe. intros H.
  apply lit_inv in H as (t & -> & H).
  apply greedy_plus_inv in H as (c & t' & -> & Hc & H).
  apply lit_inv in H as (t'' & -> & H).
  apply greedy_plus_inv in H as (u & t3 & -> & Hu & H).
  apply lit_inv in H as (t4 & -> & [= <-]). simpl.
  exists u. repeat split; auto.
Qed.

(** [exec] returns the input split at the match: what precedes it has
    length [index], and [whole] is the text the expression consumed. *)
Lemma execFrom_inv (re : matcher) (s : string) (i : nat) (m : result) :
  execFrom re i s = Some m ->
  exists pre t g,
    s = pre ++ t /\ re t = Some g /\ index m = i + String.length pre /\
    whole m = take (String.length t - String.length (after g)) t /\
    group1 m = g1 g /\ group2 m = g2 g.
Proof.
  revert i. induction s as [|x s IH]; intros i; simpl.
  - destruct (re "") as [g|] eqn:E; [|discriminate].
    intros [= <-]. exists "", "", g. simpl. repeat split; auto.
  - destruct (re (String x s)) as [g|] eqn:E.
    + intros [= <-]. exists "", (String x s), g. simpl. repeat split; auto.
    + intros H. destruct (IH _ H) as (pre & t & g & -> & Hre & Hi & Hw & H1 & H2).
      exists (String x pre), t, g. simpl. repeat split; auto. lia.
Qed.



End ReFacts.

(* ------------------------------------------------------------------ *)
(** ** Selection of the earliest match *)

Section Selection.
Variable remaining : string.

Lemma annotation_candidateOf (a : construct) (m : Re.result) :
  annotation (candidateOf a m) = a.
Proof. now destruct a. Qed.

Lemma index_candidateOf (a : construct) (m : Re.result) :
  index (candidateOf a m) = Re.index m.
Proof. now destruct a. Qed.

Lemma mlength_candidateOf (a : construct) (m : Re.result) :
  mlength (candidateOf a m) = String.length (Re.whole m).
Proof. now destruct a. Qed.

Lemma mcontent_candidateOf (a : construct) (m : Re.result) :
  mcontent (candidateOf a m) = Re.group1 m.
Proof. now destruct a. Qed.

Lemma nth_error_snoc {A} (l : list A) (x y : A) (j : nat) :
  nth_error (l ++ [x]) j = Some y ->
  (j < List.length l /\ nth_error l j = Some y) \/ (j = List.length l /\ y = x).
Proof.
  intros H. destruct (Nat.lt_ge_cases j (List.length l)) as [Hlt|Hge].
  - left. split; [exact Hlt|]. now rewrite nth_error_app1 in H.
  - right. rewrite nth_error_app2 in H by exact Hge.
    destruct (j - List.length l) as [|d] eqn:E; simpl in H.
    + split; [lia | congruence].
    + now destruct d.
Qed.

Lemma nth_error_last {A} (l : list A) (x : A) :
  nth_error (l ++ [x]) (List.length l) = Some x.
Proof. rewrite nth_error_app2, Nat.sub_diag by lia. reflexivity. Qed.

Lemma selection_step (ps : list (Re.matcher * construct))
      (r : option candidate) (p : Re.matcher * construct) :
  selection remaining ps r ->
  selection remaining (ps ++ [p]) (consider remaining r p).
Proof.
  destruct p as [re a]. unfold consider; simpl.
  destruct (Re.exec re remaining) as [m|] eqn:E.
  - assert (Hnew : (forall j' re' a' m', nth_error ps j' = Some (re', a') ->
                      Re.exec re' remaining = Some m' ->
                      Re.index m < Re.index m') ->
                   selected remaining (ps ++ [(re, a)]) (candidateOf a m)).
    { intros Hlt. exists (List.length ps), re, m.
      rewrite annotation_candidateOf, index_candidateOf.
      repeat split; [apply nth_error_last | exact E |].
      intros j' re' a' m' Hn He.
      apply nth_error_snoc in Hn as [[_ Hn]|[-> [= -> ->]]].
      - left. eapply Hlt; eassumption.
      - right. split; [congruence | lia]. }
    destruct r as [e|]; simpl.
    + intros (j & re0 & m0 & Hn & He & Hc & Hmin).
      destruct (Nat.ltb_spec (Re.index m) (index e)) as [Hlt|Hge].
      * apply Hnew. intros j' re' a' m' Hn' He'.
        destruct (Hmin _ _ _ _ Hn' He') as [?|[? _]]; lia.
      * exists j, re0, m0. repeat split; auto.
        { rewrite nth_error_app1; [exact Hn|].
          apply nth_error_Some. congruence. }
        intros j' re' a' m' Hn' He'.
        apply nth_error_snoc in Hn' as [[_ Hn']|[-> [= -> ->]]].
        { eapply Hmin; eassumption. }
        assert (m' = m) as -> by congruence.
        assert (j < List.length ps) by (apply nth_error_Some; congruence).
        lia.
    + intros Hnone. apply Hnew. intros j' re' a' m' Hn' He'.
      rewrite (Hnone _ _ _ Hn') in He'. discriminate.
  - destruct r as [e|]; simpl.
    + intros (j & re0 & m0 & Hn & He & Hc & Hmin).
      exists j, re0, m0. repeat split; auto.
      { rewrite nth_error_app1; [exact Hn|].
        apply nth_error_Some. congruence. }
      intros j' re' a' m' Hn' He'.
      apply nth_error_snoc in Hn' as [[_ Hn']|[-> [= -> ->]]].
      { eapply Hmin; eassumption. }
      congruence.
    + intros Hnone j' re' a' Hn'.
      apply nth_error_snoc in Hn' as [[_ Hn']|[-> [= -> ->]]].
      { eapply Hnone; eassumption. }
      exact E.
Qed.

Lemma selection_fold (ps : list (Re.matcher * construct)) :
  selection remaining ps (fold_left (consider remaining) ps None).
Proof.
  induction ps as [|p ps IH] using rev_ind.
  - intros j re a H. now destruct j.
  - rewrite fold_left_app. simpl. now apply selection_step.
Qed.



End Selection.

(* ------------------------------------------------------------------ *)
(** ** The scanner splits its input; the run renderer puts it back *)

Section ScanRender.
Import Str StrFacts.

Lemma render_plain (c : string) :
  renderRun (richTextValue (plainRun c)) = Return (VString c).
Proof. destruct c; reflexivity. Qed.

Lemma render_annotated (a : construct) (c : string) :
  a <> Link ->
  renderRun (richTextValue (mkRichText (mkText c LinkNull) (Some [a])))
  = Return (VString (delimiter a ++ c ++ delimiter a)).
Proof. intros Ha. destruct a; try congruence; destruct c; reflexivity. Qed.

Lemma render_link (c u : string) :
  u <> "" ->
  renderRun (richTextValue (mkRichText (mkText c (LinkUrl u)) (Some [])))
  = Return (VString ("[" ++ c ++ "](" ++ u ++ ")")).
Proof.
  intros Hu. destruct u as [|x u]; [congruence|]. destruct c; reflexivity.
Qed.

Lemma whole_of (w a : string) :
  take (String.length (w ++ a) - String.length a) (w ++ a) = w.
Proof.
  rewrite length_append, Nat.add_sub. apply take_app.
Qed.

Lemma delimited_splits (remaining : string) (a : construct) (m : Re.result) :
  a <> Link ->
  Re.exec (Re.delimited (delimiter a) (delimiter a)) remaining = Some m ->
  splitsAt remaining (candidateOf a m).
Proof.
  intros Ha H. apply ReFacts.execFrom_inv in H
    as (pre & t & g & -> & Hre & Hi & Hw & H1 & H2).
  apply ReFacts.delimited_inv in Hre as (_ & Hne & Ht).
  rewrite Ht in Hw.
  replace (delimiter a ++ Re.g1 g ++ delimiter a ++ Re.after g)
    with ((delimiter a ++ Re.g1 g ++ delimiter a) ++ Re.after g) in Hw
    by now rewrite !append_assoc.
  rewrite whole_of in Hw.
  exists pre, (delimiter a ++ Re.g1 g ++ delimiter a), (Re.after g).
  rewrite index_candidateOf, mlength_candidateOf, Hw, Hi.
  repeat split.
  - now rewrite Ht, !append_assoc.
  - intros E. apply (f_equal String.length) in E.
    rewrite !length_append in E. destruct (Re.g1 g); [congruence|].
    simpl in E. lia.
  - replace (richTextOf (candidateOf a m))
      with (mkRichText (mkText (Re.g1 g) LinkNull) (Some [a]))
      by (destruct a; try congruence; unfold richTextOf; simpl; now rewrite H1).
    now apply render_annotated.
Qed.

Lemma link_splits (remaining : string) (m : Re.result) :
  Re.exec Re.linkRe remaining = Some m ->
  splitsAt remaining (candidateOf Link m).
Proof.
  intros H. apply ReFacts.execFrom_inv in H
    as (pre & t & g & -> & Hre & Hi & Hw & H1 & H2).
  apply ReFacts.linkRe_inv in Hre as (u & Hu & Hne & Ht).
  rewrite Ht in Hw.
  replace ("[" ++ Re.g1 g ++ "](" ++ u ++ ")" ++ Re.after g)
    with (("[" ++ Re.g1 g ++ "](" ++ u ++ ")") ++ Re.after g) in Hw
    by now rewrite !append_assoc.
  rewrite whole_of in Hw.
  exists pre, ("[" ++ Re.g1 g ++ "](" ++ u ++ ")"), (Re.after g).
  unfold candidateOf; simpl. rewrite Hw, Hi.
  repeat split.
  - rewrite Ht. f_equal. simpl. f_equal.
    repeat (rewrite append_assoc; simpl). reflexivity.
  - discriminate.
  - unfold richTextOf; simpl. rewrite H1, H2, Hu.
    destruct u as [|x u]; [congruence|]. simpl isEmpty. cbv iota.
    now apply render_link.
Qed.

Lemma findEarliest_splits (remaining : string) (e : candidate) :
  findEarliest remaining = Some e -> splitsAt remaining e.
Proof.
  intros H. pose proof (selection_fold remaining patterns) as S.
  fold (findEarliest remaining) in S. rewrite H in S.
  destruct S as (j & re & m & Hn & He & -> & _).
  do 5 (destruct j as [|j];
        [ injection Hn as <- Ha; rewrite <- Ha in *;
          first [ now apply link_splits
                | now apply (delimited_splits remaining _ m) ] | ]).
  now destruct j.
Qed.

End ScanRender.

Section ScanTotal.
Import Str StrFacts.

Lemma splitsAt_take (remaining : string) (e : candidate) :
  splitsAt remaining e ->
  exists src,
    remaining = take (index e) remaining ++ src
                     ++ drop (index e + mlength e) remaining /\
    mlength e = String.length src /\ src <> "" /\
    renderRun (richTextValue (richTextOf e)) = Return (VString src) /\
    (index e = 0 -> take (index e) remaining = "").
Proof.
  intros (pre & src & post & -> & Hi & Hl & Hne & Hr).
  exists src. rewrite Hi, Hl, take_app, drop_add, drop_app, drop_app.
  repeat split; auto.
  intros E. now destruct pre.
Qed.

Lemma splitsAt_shorter (remaining : string) (e : candidate) :
  splitsAt remaining e ->
  String.length (drop (index e + mlength e) remaining)
  < String.length remaining.
Proof.
  intros (pre & src & post & -> & Hi & Hl & Hne & _).
  rewrite length_drop, !length_append, Hi, Hl.
  destruct src; [congruence | simpl; lia].
Qed.

(** The loop ends within its bound: it never returns [None] when
    [fuel] exceeds the length of [remaining]. *)
Lemma scan_fuel (fuel : nat) (remaining : string) :
  String.length remaining < fuel -> exists runs, scan fuel remaining = Some runs.
Proof.
  revert remaining. induction fuel as [|fuel IH]; intros remaining Hlen; [lia|].
  simpl. destruct (isEmpty remaining) eqn:E; [eauto|].
  destruct (findEarliest remaining) as [e|] eqn:F; [|eauto].
  apply findEarliest_splits in F. apply splitsAt_shorter in F.
  destruct (IH (drop (index e + mlength e) remaining)) as [rest ->]; [lia|].
  eauto.
Qed.

Lemma joinValues_strings (strs : list string) :
  joinValues "" (map VString strs) = Return (String.concat "" strs).
Proof.
  unfold joinValues.
  assert (H : mapM (fun x => if nullish x then Return "" else toString x)
                   (map VString strs) = Return strs).
  { induction strs as [|s strs IH]; simpl; [reflexivity | now rewrite IH]. }
  now rewrite H.
Qed.

Lemma rendersTo_markdown (runs : list NotionRichText) (strs : list string) :
  rendersTo runs strs ->
  richTextToMarkdown (richTextArray runs) = Return (String.concat "" strs).
Proof.
  intros H. unfold richTextToMarkdown, richTextArray.
  assert (M : mapM renderRun (map richTextValue runs)
              = Return (map VString strs)).
  { induction H as [|r s runs strs Hr _ IH]; simpl; [reflexivity|].
    now rewrite Hr, IH. }
  rewrite M. simpl. apply joinValues_strings.
Qed.

Lemma scan_rendersTo (fuel : nat) (remaining : string)
      (runs : list NotionRichText) :
  scan fuel remaining = Some runs ->
  exists strs, rendersTo runs strs /\ String.concat "" strs = remaining.
Proof.
  revert remaining runs.
  induction fuel as [|fuel IH]; intros remaining runs; simpl; [discriminate|].
  destruct (isEmpty remaining) eqn:E.
  - intros [= <-]. exists []. split; [constructor|].
    now apply isEmpty_true in E.
  - destruct (findEarliest remaining) as [e|] eqn:F.
    + destruct (scan fuel (drop (index e + mlength e) remaining))
        as [rest|] eqn:Sc; [|discriminate].
      intros [= <-].
      destruct (IH _ _ Sc) as (strs & Hrest & Hcat).
      apply findEarliest_splits, splitsAt_take in F
        as (src & Hsplit & _ & _ & Hrender & Hzero).
      destruct (Nat.ltb_spec 0 (index e)) as [Hpos|Hz].
      * exists (take (index e) remaining :: src :: strs). split.
        { constructor; [apply render_plain|]. now constructor. }
        rewrite !concat_nil_sep, Hcat. now rewrite <- Hsplit.
      * exists (src :: strs). split; [now constructor|].
        rewrite concat_nil_sep, Hcat.
        rewrite Hzero in Hsplit by lia. now rewrite Hsplit at 2.
    + intros [= <-]. exists [remaining]. split.
      * constructor; [apply render_plain | constructor].
      * simpl. reflexivity.
Qed.

(** The value of the local [result] when the loop ends. *)
Lemma parseInlineFormatting_scan (text : string) :
  exists runs,
    scan (S (String.length text)) text = Some runs /\
    parseInlineFormatting text
    = match runs with [] => [plainRun text] | _ => runs end.
Proof.
  destruct (scan_fuel (S (String.length text)) text) as [runs H]; [lia|].
  exists runs. split; [exact H|]. unfold parseInlineFormatting. now rewrite H.
Qed.

(** Rendering the runs of a string gives the string back. *)
Lemma render_parse (s : string) :
  richTextToMarkdown (richTextArray (parseInlineFormatting s)) = Return s.
Proof.
  destruct (parseInlineFormatting_scan s) as (runs & Hscan & ->).
  destruct (scan_rendersTo _ _ _ Hscan) as (strs & Hr & Hcat).
  destruct runs as [|r runs].
  - inversion Hr; subst. reflexivity.
  - rewrite (rendersTo_markdown _ _ Hr). now rewrite Hcat.
Qed.

(** Without any match the scanner returns its input as one plain run. *)
Lemma parse_no_match (s : string) :
  findEarliest s = None -> parseInlineFormatting s = [plainRun s].
Proof.
  intros H. unfold parseInlineFormatting. simpl.
  destruct (isEmpty s); [reflexivity|]. now rewrite H.
Qed.

End ScanTotal.

(* ------------------------------------------------------------------ *)
(** ** Claims about the inline scanner *)

Section ScanContents.
Import Str StrFacts.

(** What a match of [/open(.+?)close/] encloses. *)
Lemma delimited_inner (remaining : string) (a : construct) (m : Re.result) :
  a <> Link ->
  Re.exec (Re.delimited (delimiter a) (delimiter a)) remaining = Some m ->
  exists pre post,
    remaining = pre ++ delimiter a ++ Re.group1 m ++ delimiter a ++ post /\
    Re.index m = String.length pre /\
    String.length (Re.whole m)
    = String.length (delimiter a) + String.length (Re.group1 m)
      + String.length (delimiter a).
Proof.
  intros Ha H. apply ReFacts.execFrom_inv in H
    as (pre & t & g & -> & Hre & Hi & Hw & H1 & H2).
  apply ReFacts.delimited_inv in Hre as (_ & _ & Ht).
  rewrite Ht in Hw.
  replace (delimiter a ++ Re.g1 g ++ delimiter a ++ Re.after g)
    with ((delimiter a ++ Re.g1 g ++ delimiter a) ++ Re.after g) in Hw
    by now rewrite !append_assoc.
  rewrite whole_of in Hw.
  exists pre, (Re.after g). rewrite H1, Hw, Hi, Ht, !length_append.
  repeat split; lia.
Qed.

Lemma link_inner (remaining : string) (m : Re.result) :
  Re.exec Re.linkRe remaining = Some m ->
  exists pre u post,
    remaining = pre ++ "[" ++ Re.group1 m ++ ("](" ++ u ++ ")") ++ post /\
    Re.index m = String.length pre /\
    String.length (Re.whole m)
    = 1 + String.length (Re.group1 m) + String.length ("](" ++ u ++ ")").
Proof.
  intros H. apply ReFacts.execFrom_inv in H
    as (pre & t & g & -> & Hre & Hi & Hw & H1 & H2).
  apply ReFacts.linkRe_inv in Hre as (u & Hu & Hne & Ht).
  rewrite Ht in Hw.
  replace ("[" ++ Re.g1 g ++ "](" ++ u ++ ")" ++ Re.after g)
    with (("[" ++ Re.g1 g ++ "](" ++ u ++ ")") ++ Re.after g) in Hw
    by now rewrite !append_assoc.
  rewrite whole_of in Hw.
  exists pre, u, (Re.after g). rewrite H1, Hw, Hi, Ht.
  repeat split.
  - f_equal. simpl. f_equal. repeat (rewrite append_assoc; simpl). reflexivity.
  - simpl. rewrite !length_append. simpl. rewrite !length_append. simpl. lia.
Qed.

Lemma findEarliest_encloses (remaining : string) (e : candidate) :
  findEarliest remaining = Some e -> encloses remaining e.
Proof.
  intros H. pose proof (selection_fold remaining patterns) as S.
  fold (findEarliest remaining) in S. rewrite H in S.
  destruct S as (j & re & m & Hn & He & -> & _).
  assert (D : forall a, a <> Link ->
                Re.exec (Re.delimited (delimiter a) (delimiter a)) remaining
                = Some m ->
                encloses remaining (candidateOf a m)).
  { intros a Ha Hd.
    destruct (delimited_inner _ _ _ Ha Hd) as (pre & post & E & Hi & Hl).
    exists pre, (delimiter a), (delimiter a), post.
    rewrite index_candidateOf, mlength_candidateOf.
    replace (content (text (richTextOf (candidateOf a m)))) with (Re.group1 m)
      by now destruct a.
    repeat split; auto; destruct a; try congruence; discriminate. }
  do 4 (destruct j as [|j];
        [ injection Hn as <- Ha; rewrite <- Ha in *;
          apply D; [discriminate | exact He] | ]).
  destruct j as [|j]; [|now destruct j].
  injection Hn as <- Ha. rewrite <- Ha.
  destruct (link_inner _ _ He) as (pre & u & post & E & Hi & Hl).
  exists pre, "[", ("](" ++ u ++ ")"), post.
  change (content (text (richTextOf (candidateOf Link m)))) with (Re.group1 m).
  repeat split; auto; discriminate.
Qed.

Lemma contents_cons (r : NotionRichText) (l : list NotionRichText) :
  contents (r :: l) = content (text r) ++ contents l.
Proof. unfold contents. cbn [map]. apply concat_nil_sep. Qed.

(** The contents are never longer than the text scanned, and shorter as
    soon as a construct is recognised. *)
Lemma scan_contents (fuel : nat) (remaining : string)
      (runs : list NotionRichText) :
  scan fuel remaining = Some runs ->
  String.length (contents runs) <= String.length remaining /\
  (isEmpty remaining = false ->
   forall e, findEarliest remaining = Some e ->
             runs <> [] /\
             String.length (contents runs) < String.length remaining).
Proof.
  revert remaining runs.
  induction fuel as [|fuel IH]; intros remaining runs; simpl; [discriminate|].
  destruct (isEmpty remaining) eqn:E.
  - intros [= <-]. split; [simpl; lia | discriminate].
  - destruct (findEarliest remaining) as [e|] eqn:F.
    + destruct (scan fuel (drop (index e + mlength e) remaining))
        as [rest|] eqn:Sc; [|discriminate].
      intros [= <-]. destruct (IH _ _ Sc) as [Hle _].
      destruct (findEarliest_encloses _ _ F)
        as (pre & opening & closing & post & Hr & Ho & Hc & Hi & Hl).
      assert (Hlen : String.length remaining
                     = String.length pre + String.length opening
                       + String.length (content (text (richTextOf e)))
                       + String.length closing + String.length post).
      { rewrite Hr at 1. rewrite !length_append. lia. }
      rewrite length_drop in Hle.
      assert (Hopen : 0 < String.length opening)
        by (destruct opening; [congruence | simpl; lia]).
      assert (Hm : content (text (richTextOf e)) = mcontent e)
        by (destruct e as [i l c a u]; destruct a; reflexivity).
      rewrite Hm in Hl, Hlen.
      assert (Hbound :
                String.length
                  (contents
                     ((if Nat.ltb 0 (index e)
                       then [plainRun (take (index e) remaining)]
                       else []) ++ richTextOf e :: rest)%list)
                < String.length remaining).
      { destruct (Nat.ltb 0 (index e)); cbn [app];
          rewrite ?contents_cons, !length_append; simpl content.
        - assert (String.length (take (index e) remaining) = String.length pre).
          { rewrite Hr, Hi, take_app. reflexivity. }
          lia.
        - lia. }
      split; [lia|]. intros _ e' _. split; [|exact Hbound].
      destruct (Nat.ltb 0 (index e)); discriminate.
    + intros [= <-]. split; [|discriminate].
      rewrite contents_cons. simpl. rewrite append_nil_r. lia.
Qed.

(** The contents give the input back exactly when nothing is
    recognised. *)
Lemma contents_exact (s : string) :
  contents (parseInlineFormatting s) = s <-> findEarliest s = None.
Proof.
  split.
  - intros H. destruct (findEarliest s) as [e|] eqn:F; [exfalso|reflexivity].
    destruct (isEmpty s) eqn:E.
    { apply isEmpty_true in E. subst s. vm_compute in F. discriminate. }
    destruct (parseInlineFormatting_scan s) as (runs & Hscan & Hp).
    destruct (proj2 (scan_contents _ _ _ Hscan) E e F) as [Hne Hlt].
    rewrite Hp in H. destruct runs as [|r runs]; [congruence|].
    rewrite H in Hlt. lia.
  - intros H. rewrite (parse_no_match _ H). unfold contents. simpl.
    reflexivity.
Qed.

End ScanContents.

(** C1, as stated, fails: the run of a recognised construct holds the
    captured text only, so on "**bold**" the contents concatenate to
    "bold". *)
Lemma C1_contents_drop_delimiters :
  contents (parseInlineFormatting "**bold**") = "bold" /\
  contents (parseInlineFormatting "**bold**") <> "**bold**".
Proof. split; [reflexivity | discriminate]. Qed.

(** C1, amended: for every string [s], the runs returned by
    [parseInlineFormatting s] stand for [s] exactly, in the sense that the
    run renderer [richTextToMarkdown] writes them back as [s].  The
    [content] fields alone concatenate to [s] if and only if no inline
    construct matches in [s].  At every step of the scan the run of the
    recognised construct holds the captured text only: the text scanned
    is what precedes the match, a non-empty opening part, the content of
    the run, a non-empty closing part, and the rest. *)
Theorem C1_scanner_preserves_source (s : string) :
  richTextToMarkdown (richTextArray (parseInlineFormatting s)) = Return s /\
  (contents (parseInlineFormatting s) = s <-> findEarliest s = None) /\
  (forall remaining e,
      findEarliest remaining = Some e ->
      exists pre opening closing post,
        remaining
        = pre ++ opening ++ content (text (richTextOf e)) ++ closing ++ post /\
        opening <> "" /\ closing <> "" /\
        index e = String.length pre /\
        mlength e
        = String.length opening + String.length (content (text (richTextOf e)))
          + String.length closing).
Proof.
  split; [apply render_parse|]. split; [apply contents_exact|].
  intros remaining e H. exact (findEarliest_encloses remaining e H).
Qed.

Lemma C1_scanner_preserves_source_witness :
  (findEarliest "Hello world" = None /\
   contents (parseInlineFormatting "Hello world") = "Hello world") /\
  (exists e,
      findEarliest "a **b** c" = Some e /\
      exists pre opening closing post,
        "a **b** c"
        = pre ++ opening ++ content (text (richTextOf e)) ++ closing ++ post /\
        opening <> "" /\ closing <> "" /\
        index e = String.length pre /\
        mlength e
        = String.length opening + String.length (content (text (richTextOf e)))
          + String.length closing).
Proof.
  split.
  - split; [reflexivity|].
    apply (proj2 (proj1 (proj2 (C1_scanner_preserves_source "Hello world")))).
    reflexivity.
  - exists (mkCandidate 2 5 "b" Bold None). split; [reflexivity|].
    apply (proj2 (proj2 (C1_scanner_preserves_source "")) "a **b** c").
    reflexivity.
Defined.


(** C10: the scan of every string ends within its bound, and
    [parseInlineFormatting] never returns an empty sequence; on the empty
    string it returns exactly one run, with empty content, no annotations
    and no link. *)
Theorem C10_runs_never_empty (s : string) :
  (exists runs, scan (S (String.length s)) s = Some runs) /\
  parseInlineFormatting s <> [] /\
  parseInlineFormatting ""
  = [mkRichText (mkText "" LinkAbsent) None].
Proof.
  split; [apply scan_fuel; lia|]. split; [|reflexivity].
  destruct (parseInlineFormatting_scan s) as (runs & _ & ->).
  destruct runs; discriminate.
Qed.

(* ------------------------------------------------------------------ *)
(** ** Claims about the line classifier *)

Section Classifier.
Import Str StrFacts.

Arguments parseInlineFormatting : simpl never.

(** A line whose trimmed text starts with [p] is [p] followed by the
    rest. *)
Ltac expose_prefix H :=
  let E := fresh "E" in
  pose proof (startsWith_app _ _ H) as E;
  simpl String.length in E;
  unfold lineToBlock;
  revert E;
  match goal with
  | |- ?t = _ ++ ?r -> _ =>
      generalize r; generalize t; intros ? ? E; rewrite E; simpl;
      rewrite ?startsWith_nil
  end.

Lemma classify_heading_3 (line : string) :
  startsWith (trim line) "### " = true ->
  lineToBlock line
  = Some (RichTextBlock "heading_3"
                        (parseInlineFormatting (drop 4 (trim line)))).
Proof. intros H. expose_prefix H. reflexivity. Qed.

Lemma classify_heading_2 (line : string) :
  startsWith (trim line) "## " = true ->
  lineToBlock line
  = Some (RichTextBlock "heading_2"
                        (parseInlineFormatting (drop 3 (trim line)))).
Proof. intros H. expose_prefix H. reflexivity. Qed.

Lemma classify_heading_1 (line : string) :
  startsWith (trim line) "# " = true ->
  lineToBlock line
  = Some (RichTextBlock "heading_1"
                        (parseInlineFormatting (drop 2 (trim line)))).
Proof. intros H. expose_prefix H. reflexivity. Qed.

Lemma classify_unchecked (line : string) :
  startsWith (trim line) "- [ ] " = true ->
  lineToBlock line
  = Some (ToDoBlock (parseInlineFormatting (drop 6 (trim line))) false).
Proof. intros H. expose_prefix H. reflexivity. Qed.

Lemma classify_checked (line : string) :
  startsWith (trim line) "- [x] " = true ->
  lineToBlock line
  = Some (ToDoBlock (parseInlineFormatting (drop 6 (trim line))) true).
Proof. intros H. expose_prefix H. reflexivity. Qed.

(** The type of the block of every branch of [lineToBlock], with the
    test that selects the branch. *)
Lemma lineToBlock_type (line : string) (b : NotionBlock) :
  lineToBlock line = Some b ->
  let t := trim line in
  (block_type b = "heading_1" /\ startsWith t "# " = true) \/
  (block_type b = "heading_2" /\ startsWith t "## " = true) \/
  (block_type b = "heading_3" /\ startsWith t "### " = true) \/
  (block_type b = "to_do" /\
     (startsWith t "- [ ] " = true \/ startsWith t "- [x] " = true)) \/
  (block_type b = "bulleted_list_item" /\
     startsWith t "- [ ] " = false /\ startsWith t "- [x] " = false) \/
  block_type b = "numbered_list_item" \/
  block_type b = "quote" \/
  block_type b = "divider" \/
  block_type b = "paragraph".
Proof.
  intros H. unfold lineToBlock in H. cbv zeta in *.
  set (t := trim line) in *.
  destruct (isEmpty t); [discriminate|].
  destruct (startsWith t "# ") eqn:H1; [injection H as <-; simpl; auto|].
  destruct (startsWith t "## ") eqn:H2; [injection H as <-; simpl; auto|].
  destruct (startsWith t "### ") eqn:H3; [injection H as <-; simpl; auto 6|].
  destruct (startsWith t "- [ ] ") eqn:H4;
    [injection H as <-; simpl; auto 8|].
  destruct (startsWith t "- [x] ") eqn:H5;
    [injection H as <-; simpl; auto 8|].
  simpl in H.
  destruct (startsWith t "- " || startsWith t "* ")%bool;
    [injection H as <-; simpl; auto 10|].
  destruct (Re.matchAnchored Re.numberedRe t);
    [injection H as <-; simpl; auto 10|].
  destruct (startsWith t "> "); [injection H as <-; simpl; auto 10|].
  destruct ((t =? "---") || (t =? "***") || (t =? "___"))%bool;
    injection H as <-; simpl; auto 12.
Qed.

End Classifier.

(** C7: a line whose trimmed text begins with "### " becomes a
    [heading_3] block, with "## " a [heading_2] block and with "# " a
    [heading_1] block, each holding the runs of the text after the marker;
    and a block of a heading type only ever comes from a line with the
    marker of that very level. *)
Theorem C7_heading_levels (line : string) :
  let trimmed := Str.trim line in
  (Str.startsWith trimmed "### " = true ->
   lineToBlock line
   = Some (RichTextBlock "heading_3"
                         (parseInlineFormatting (Str.drop 4 trimmed)))) /\
  (Str.startsWith trimmed "## " = true ->
   lineToBlock line
   = Some (RichTextBlock "heading_2"
                         (parseInlineFormatting (Str.drop 3 trimmed)))) /\
  (Str.startsWith trimmed "# " = true ->
   lineToBlock line
   = Some (RichTextBlock "heading_1"
                         (parseInlineFormatting (Str.drop 2 trimmed)))) /\
  (forall b, lineToBlock line = Some b ->
             (block_type b = "heading_1" -> Str.startsWith trimmed "# " = true) /\
             (block_type b = "heading_2" -> Str.startsWith trimmed "## " = true) /\
             (block_type b = "heading_3" -> Str.startsWith trimmed "### " = true)).
Proof.
  intros trimmed.
  split; [apply classify_heading_3|].
  split; [apply classify_heading_2|].
  split; [apply classify_heading_1|].
  intros b H. apply lineToBlock_type in H. fold trimmed in H.
  repeat split; intros E; rewrite E in H; intuition discriminate.
Qed.

Lemma C7_heading_levels_witness :
  lineToBlock "  ### Title"
  = Some (RichTextBlock "heading_3" [plainRun "Title"]) /\
  lineToBlock "## Title"
  = Some (RichTextBlock "heading_2" [plainRun "Title"]) /\
  lineToBlock "# Title "
  = Some (RichTextBlock "heading_1" [plainRun "Title"]).
Proof.
  split; [|split].
  - apply (proj1 (C7_heading_levels "  ### Title")). reflexivity.
  - apply (proj1 (proj2 (C7_heading_levels "## Title"))). reflexivity.
  - apply (proj1 (proj2 (proj2 (C7_heading_levels "# Title ")))). reflexivity.
Defined.

(** C8: a line whose trimmed text begins with "- [ ] " becomes a [to_do]
    block with [checked = false], one beginning with "- [x] " a [to_do]
    block with [checked = true]; a [bulleted_list_item] block never comes
    from such a line. *)
Theorem C8_checkbox_before_bullet (line : string) :
  let trimmed := Str.trim line in
  (Str.startsWith trimmed "- [ ] " = true ->
   lineToBlock line
   = Some (ToDoBlock (parseInlineFormatting (Str.drop 6 trimmed)) false)) /\
  (Str.startsWith trimmed "- [x] " = true ->
   lineToBlock line
   = Some (ToDoBlock (parseInlineFormatting (Str.drop 6 trimmed)) true)) /\
  (forall b, lineToBlock line = Some b ->
             block_type b = "bulleted_list_item" ->
             Str.startsWith trimmed "- [ ] " = false /\
             Str.startsWith trimmed "- [x] " = false).
Proof.
  intros trimmed. split; [|split].
  - apply classify_unchecked.
  - apply classify_checked.
  - intros b H E. apply lineToBlock_type in H. fold trimmed in H.
    rewrite E in H. intuition discriminate.
Qed.

Lemma C8_checkbox_before_bullet_witness :
  lineToBlock "- [ ] Todo item"
  = Some (ToDoBlock [plainRun "Todo item"] false) /\
  lineToBlock "- [x] Done item"
  = Some (ToDoBlock [plainRun "Done item"] true).
Proof.
  split.
  - apply (proj1 (C8_checkbox_before_bullet "- [ ] Todo item")). reflexivity.
  - apply (proj1 (proj2 (C8_checkbox_before_bullet "- [x] Done item"))).
    reflexivity.
Defined.

(* ------------------------------------------------------------------ *)
(** ** Claims about the fence splitter *)

Section Splitter.
Import Str StrFacts.

Lemma splitStep_inv (st : splitter) (line : string) :
  splitterInv st -> splitterInv (splitStep st line).
Proof.
  unfold splitterInv, splitStep.
  destruct (startsWith line "```"), (inCodeBlock st) eqn:E; simpl;
    rewrite ?E; intros H; rewrite ?H; try reflexivity.
  now destruct (isNil (textContent st)) eqn:N; [destruct (textContent st)|].
Qed.

Lemma fold_inv (lines : list string) (st : splitter) :
  splitterInv st -> splitterInv (fold_left splitStep lines st).
Proof.
  revert st. induction lines as [|l lines IH]; intros st H; simpl; [exact H|].
  now apply IH, splitStep_inv.
Qed.

Lemma splitStep_inCodeBlock (st : splitter) (line : string) :
  inCodeBlock (splitStep st line) = xorb (inCodeBlock st) (isFence line).
Proof.
  unfold splitStep, isFence.
  destruct (startsWith line "```"), (inCodeBlock st) eqn:E; simpl;
    rewrite ?E; reflexivity.
Qed.

Lemma fold_inCodeBlock (lines : list string) (st : splitter) :
  inCodeBlock (fold_left splitStep lines st)
  = xorb (inCodeBlock st) (Nat.odd (fences lines)).
Proof.
  revert st. induction lines as [|l lines IH]; intros st; simpl.
  - now destruct (inCodeBlock st).
  - rewrite IH, splitStep_inCodeBlock. unfold fences; simpl.
    destruct (isFence l); simpl List.length.
    + rewrite Nat.odd_succ, <- Nat.negb_odd.
      now destruct (inCodeBlock st), (Nat.odd _).
    + now destruct (inCodeBlock st).
Qed.

(** Inside a fence, lines that are not markers pile up in
    [codeContent]. *)
Lemma fold_fenced (body : list string) (st : splitter) :
  inCodeBlock st = true ->
  fences body = 0 ->
  fold_left splitStep body st
  = mkSplitter (parts st) true (codeContent st ++ body)
               (codeLanguage st) (textContent st).
Proof.
  revert st. induction body as [|l body IH]; intros st Hin Hf; simpl.
  - rewrite app_nil_r. destruct st; simpl in *. now subst.
  - unfold fences in Hf. simpl in Hf.
    destruct (isFence l) eqn:F; [discriminate|].
    rewrite IH.
    + unfold splitStep. unfold isFence in F. rewrite F, Hin. simpl.
      now rewrite <- app_assoc.
    + rewrite splitStep_inCodeBlock, Hin, F. reflexivity.
    + exact Hf.
Qed.

(** An opening marker after [before], followed by [body] without a
    further marker: the parts are those of [before] and, when [body] is
    not empty, one code part. *)
Lemma splitLines_unterminated (before body : list string) (fence : string) :
  Nat.even (fences before) = true ->
  isFence fence = true ->
  fences body = 0 ->
  splitLines (before ++ fence :: body)
  = (splitLines before
       ++ if isNil body then []
          else [mkPart (join nl body) true
                       (Some (orPlainText (trim (drop 3 fence))))])%list.
Proof.
  intros Heven Hfence Hbody. unfold splitLines.
  rewrite fold_left_app. simpl.
  set (st := fold_left splitStep before splitInit).
  assert (Hin : inCodeBlock st = false).
  { unfold st. rewrite fold_inCodeBlock. simpl.
    now rewrite <- Nat.negb_even, Heven. }
  assert (Hcode : codeContent st = []).
  { pose proof (fold_inv before splitInit eq_refl) as I.
    fold st in I. unfold splitterInv in I. now rewrite Hin in I. }
  rewrite fold_fenced; [| |exact Hbody].
  - unfold splitStep. unfold isFence in Hfence. rewrite Hfence, Hin.
    unfold splitFinish. simpl. rewrite Hcode. simpl.
    destruct (isNil (textContent st)) eqn:N.
    + destruct (textContent st); [|discriminate]. simpl.
      destruct body; simpl; [now rewrite app_nil_r | reflexivity].
    + simpl. destruct body; simpl; [now rewrite app_nil_r | reflexivity].
  - rewrite splitStep_inCodeBlock, Hin, Hfence. reflexivity.
Qed.

Lemma orPlainText_idem (x : string) :
  orPlainText (orPlainText x) = orPlainText x.
Proof. now destruct x. Qed.

End Splitter.

(** C6, as stated, fails when the opening marker is the last line: no line
    has been collected, the flush is guarded by [codeContent.length > 0],
    and neither a code segment nor a code block is produced; the language
    tag is lost with it. *)
Lemma C6_marker_on_last_line :
  fences [] = 0 /\ isFence "```js" = true /\
  parseCodeBlocks "```js" = [] /\ markdownToBlocks "```js" = [].
Proof. repeat split. Qed.

(** C6, amended: when the lines of the input are [before], then a marker
    that opens a fence, then at least one line [body] up to the end of the
    input with no further marker, [parseCodeBlocks] ends with a code
    segment holding [body], and [markdownToBlocks] ends with a code block
    holding it; the language is the trimmed text after the marker, or
    "plain text" when there is none. *)
Theorem C6_unterminated_fence_flushed
        (markdown : string) (before body : list string) (fence : string) :
  Str.split_nl markdown = (before ++ fence :: body)%list ->
  Nat.even (fences before) = true ->
  isFence fence = true ->
  fences body = 0 ->
  body <> [] ->
  let language := orPlainText (Str.trim (Str.drop 3 fence)) in
  parseCodeBlocks markdown
  = (splitLines before
       ++ [mkPart (Str.join Str.nl body) true (Some language)])%list /\
  markdownToBlocks markdown
  = (flat_map partBlocks (splitLines before)
       ++ [CodeBlock [plainRun (Str.join Str.nl body)] language])%list.
Proof.
  intros Hlines Heven Hfence Hbody Hne language.
  assert (P : parseCodeBlocks markdown
              = (splitLines before
                   ++ [mkPart (Str.join Str.nl body) true (Some language)])%list).
  { unfold parseCodeBlocks. rewrite Hlines.
    rewrite splitLines_unterminated by assumption.
    destruct body; [congruence | reflexivity]. }
  split; [exact P|].
  unfold markdownToBlocks. rewrite P, flat_map_app. simpl.
  unfold partBlocks at 2. simpl. unfold language.
  now rewrite orPlainText_idem.
Qed.

Lemma C6_unterminated_fence_flushed_witness :
  parseCodeBlocks ("intro" ++ Str.nl ++ "```js" ++ Str.nl ++ "let x;" ++ Str.nl ++ "x = 1;")
  = [mkPart "intro" false None;
     mkPart ("let x;" ++ Str.nl ++ "x = 1;") true (Some "js")] /\
  markdownToBlocks ("intro" ++ Str.nl ++ "```js" ++ Str.nl ++ "let x;" ++ Str.nl ++ "x = 1;")
  = [RichTextBlock "paragraph" [plainRun "intro"];
     CodeBlock [plainRun ("let x;" ++ Str.nl ++ "x = 1;")] "js"].
Proof.
  apply (C6_unterminated_fence_flushed
           ("intro" ++ Str.nl ++ "```js" ++ Str.nl ++ "let x;" ++ Str.nl ++ "x = 1;")
           ["intro"] ["let x;"; "x = 1;"] "```js");
    solve [reflexivity | discriminate].
Defined.

(* ------------------------------------------------------------------ *)
(** ** Round trip through both pipelines *)

Section RoundTrip.
Import Str StrFacts.

Arguments parseInlineFormatting : simpl never.

Lemma split_nl_singleLine (m : string) :
  singleLine m = true -> split_nl m = [m].
Proof.
  induction m as [|c m IH]; simpl; [reflexivity|].
  destruct (Ascii.eqb c LF); simpl; [discriminate|].
  intros H. now rewrite (IH H).
Qed.

Lemma splitLines_single (m : string) :
  isFence m = false -> splitLines [m] = [mkPart m false None].
Proof.
  intros H. unfold splitLines, splitStep, isFence in *. simpl.
  now rewrite H.
Qed.

(** A single line that is not a marker goes to the classifier as it
    is. *)
Lemma markdownToBlocks_line (m : string) :
  singleLine m = true -> isFence m = false ->
  markdownToBlocks m
  = match lineToBlock m with Some block => [block] | None => [] end.
Proof.
  intros Hl Hf. unfold markdownToBlocks, parseCodeBlocks.
  rewrite (split_nl_singleLine _ Hl), (splitLines_single _ Hf). simpl.
  unfold partBlocks. simpl. rewrite (split_nl_singleLine _ Hl). simpl.
  now rewrite !app_nil_r.
Qed.

Lemma blocksToMarkdown_one (b : value) :
  blocksToMarkdown [b]
  = (lines <- blockLines b ;; Return (join (nl ++ nl) lines)).
Proof.
  unfold blocksToMarkdown. simpl.
  destruct (blockLines b); simpl; [now rewrite app_nil_r | reflexivity].
Qed.

(** What the renderer writes for a block that holds the runs of [s]. *)
Lemma render_block (type prefix s : string) :
  In (type, prefix)
     [("paragraph", ""); ("heading_1", "# "); ("heading_2", "## ");
      ("heading_3", "### "); ("bulleted_list_item", "- ");
      ("numbered_list_item", "1. "); ("quote", "> ")] ->
  blocksToMarkdown
    [blockValue (RichTextBlock type (parseInlineFormatting s))]
  = Return (prefix ++ s).
Proof.
  intros H. rewrite blocksToMarkdown_one.
  assert (E : forall rt,
             blockLines (blockValue (RichTextBlock type rt))
             = (r <- richTextToMarkdown (richTextArray rt) ;;
                Return [prefix ++ r])).
  { intros rt. simpl in H.
    repeat (destruct H as [[= <- <-]|H]; [reflexivity|]).
    contradiction. }
  rewrite E, render_parse. reflexivity.
Qed.

Lemma render_to_do (checked : bool) (s : string) :
  blocksToMarkdown [blockValue (ToDoBlock (parseInlineFormatting s) checked)]
  = Return ((if checked then "- [x] " else "- [ ] ") ++ s).
Proof.
  rewrite blocksToMarkdown_one.
  assert (E : forall rt,
             blockLines (blockValue (ToDoBlock rt checked))
             = (r <- richTextToMarkdown (richTextArray rt) ;;
                Return [(if checked then "- [x] " else "- [ ] ") ++ r])).
  { intros rt. now destruct checked. }
  rewrite E, render_parse. reflexivity.
Qed.

Lemma render_divider : blocksToMarkdown [blockValue DividerBlock] = Return "---".
Proof. reflexivity. Qed.

End RoundTrip.

(** C2, as stated, fails: a line is trimmed before it is classified, and
    the renderer writes every bullet as "- ", every numbered item as
    "1. " and every divider as "---".  Each input below is a single block
    with at most one annotated run, and does not come back as it was. *)
Lemma C2_markers_are_normalised :
  (List.length (markdownToBlocks "2. item") = 1 /\
   Forall (fun b => annotatedRuns b <= 1) (markdownToBlocks "2. item") /\
   roundTrip "2. item" = Return "1. item") /\
  (List.length (markdownToBlocks "* item") = 1 /\
   Forall (fun b => annotatedRuns b <= 1) (markdownToBlocks "* item") /\
   roundTrip "* item" = Return "- item") /\
  (List.length (markdownToBlocks "***") = 1 /\
   Forall (fun b => annotatedRuns b <= 1) (markdownToBlocks "***") /\
   roundTrip "***" = Return "---") /\
  (List.length (markdownToBlocks "  **bold**") = 1 /\
   Forall (fun b => annotatedRuns b <= 1) (markdownToBlocks "  **bold**") /\
   roundTrip "  **bold**" = Return "**bold**").
Proof.
  repeat split; repeat constructor.
Qed.

(** C2, amended: [blocksToMarkdown (markdownToBlocks m)] equals [m] for
    every [m] that is a single line without leading or trailing white
    space, does not start with a fence marker, and carries no marker the
    renderer rewrites: no "* " bullet, no numbered item other than "1. "
    followed directly by its text, and neither "***" nor "___".  Such a
    line is one block (none when it is empty), and the equation holds for
    any number of inline constructs in it. *)
Theorem C2_round_trip_single_line (m : string) :
  singleLine m = true ->
  Str.trim m = m ->
  isFence m = false ->
  Str.startsWith m "* " = false ->
  numberedFromOne m = true ->
  m <> "***" ->
  m <> "___" ->
  roundTrip m = Return m.
Proof.
  intros Hline Htrim Hfence Hstar Hnum Hd1 Hd2.
  unfold roundTrip. rewrite (markdownToBlocks_line _ Hline Hfence).
  unfold lineToBlock. rewrite Htrim. cbv zeta.
  destruct (Str.isEmpty m) eqn:E0.
  { apply StrFacts.isEmpty_true in E0. now subst m. }
  assert (R : forall type prefix,
             In (type, prefix)
                [("paragraph", ""); ("heading_1", "# "); ("heading_2", "## ");
                 ("heading_3", "### "); ("bulleted_list_item", "- ");
                 ("numbered_list_item", "1. "); ("quote", "> ")] ->
             Str.startsWith m prefix = true ->
             blocksToMarkdown
               (map blockValue
                    [RichTextBlock type
                       (parseInlineFormatting
                          (Str.drop (String.length prefix) m))])
             = Return m).
  { intros type prefix Hin Hp. cbn [map]. rewrite (render_block _ _ _ Hin).
    now rewrite <- (StrFacts.startsWith_app _ _ Hp). }
  destruct (Str.startsWith m "# ") eqn:H1.
  { apply (R "heading_1" "# "); simpl; auto. }
  destruct (Str.startsWith m "## ") eqn:H2.
  { apply (R "heading_2" "## "); simpl; auto 6. }
  destruct (Str.startsWith m "### ") eqn:H3.
  { apply (R "heading_3" "### "); simpl; auto 6. }
  destruct (Str.startsWith m "- [ ] ") eqn:H4.
  { simpl orb. cbv iota. cbn [map]. rewrite render_to_do.
    pose proof (StrFacts.startsWith_app _ _ H4) as E. simpl String.length in E.
    destruct (Str.startsWith m "- [x] ") eqn:H5.
    - rewrite E in H5. discriminate.
    - now rewrite <- E. }
  destruct (Str.startsWith m "- [x] ") eqn:H5.
  { simpl orb. cbv iota. cbn [map]. rewrite render_to_do.
    pose proof (StrFacts.startsWith_app _ _ H5) as E. simpl String.length in E.
    now rewrite <- E. }
  simpl orb. cbv iota. rewrite Hstar, orb_false_r.
  destruct (Str.startsWith m "- ") eqn:H6.
  { apply (R "bulleted_list_item" "- "); simpl; auto 8. }
  unfold numberedFromOne in Hnum.
  destruct (Re.matchAnchored Re.numberedRe m) as [r|].
  { apply String.eqb_eq in Hnum. cbn [map].
    rewrite (render_block "numbered_list_item" "1. ") by (simpl; auto 10).
    now rewrite <- Hnum. }
  destruct (Str.startsWith m "> ") eqn:H7.
  { apply (R "quote" "> "); simpl; auto 10. }
  destruct (String.eqb_spec m "---") as [->|Hd0]; [reflexivity|].
  destruct (String.eqb_spec m "***") as [->|_]; [congruence|].
  destruct (String.eqb_spec m "___") as [->|_]; [congruence|].
  simpl orb. cbv iota. cbn [map].
  rewrite (render_block "paragraph" "") by (simpl; auto). reflexivity.
Qed.

Lemma C2_round_trip_single_line_witness :
  roundTrip "**bold**" = Return "**bold**" /\
  roundTrip "*italic*" = Return "*italic*" /\
  roundTrip "`code`" = Return "`code`" /\
  roundTrip "~~deleted~~" = Return "~~deleted~~" /\
  roundTrip "[text](url)" = Return "[text](url)" /\
  roundTrip "## A **b** and [c](d)" = Return "## A **b** and [c](d)".
Proof.
  repeat apply conj;
    apply C2_round_trip_single_line; solve [reflexivity | discriminate].
Defined.

(* ------------------------------------------------------------------ *)
(** ** Claims about the renderers *)

(** C3: a record of type 'paragraph' without a 'paragraph' field makes
    [blocksToMarkdown] throw: the known block types read
    [(b.paragraph).rich_text] without the guard that the default branch
    and [blocksToPlainText] apply, which skip the same kind of record. *)
Theorem C3_missing_payload_throws :
  blocksToMarkdown [VObject [("type", VString "paragraph")]] = ThrowTypeError /\
  blocksToMarkdown [VObject [("type", VString "callout")]] = Return "" /\
  blocksToPlainText [VObject [("type", VString "paragraph")]] = Return "".
Proof. repeat split. Qed.

(** C4: the three strings a code block pushes are joined like separate
    blocks, so a blank line follows the opening fence and precedes the
    closing one; read back, the body has gained an empty first and last
    line. *)
Theorem C4_code_block_gets_blank_lines :
  blocksToMarkdown [blockValue (CodeBlock [plainRun "x"] "js")]
  = Return ("```js" ++ Str.nl ++ Str.nl ++ "x" ++ Str.nl ++ Str.nl ++ "```") /\
  markdownToBlocks ("```js" ++ Str.nl ++ "x" ++ Str.nl ++ "```")
  = [CodeBlock [plainRun "x"] "js"] /\
  markdownToBlocks ("```js" ++ Str.nl ++ Str.nl ++ "x" ++ Str.nl ++ Str.nl ++ "```")
  = [CodeBlock [plainRun (Str.nl ++ "x" ++ Str.nl)] "js"] /\
  blocksToMarkdown [blockValue (RichTextBlock "paragraph" [plainRun "a"]);
                    blockValue (RichTextBlock "paragraph" [plainRun "b"])]
  = Return ("a" ++ Str.nl ++ Str.nl ++ "b").
Proof. repeat split. Qed.

(** *** Plain-text extraction *)

Section PlainText.
Import Str StrFacts.

Lemma runContent_like (rt : value) :
  runLike rt = true -> runContent rt = Return (VString (runText rt)).
Proof.
  destruct rt as [| | | | |items|props|name]; try discriminate.
  unfold runLike, runContent, runText, get.
  destruct (lookup "text" props) as [[| | | | |?|fields|?]|];
    try discriminate; try reflexivity.
  unfold optGet, get. simpl.
  destruct (lookup "content" fields) as [[| | | |c|?|?|?]|];
    try discriminate; try reflexivity.
  intros _. now destruct c.
Qed.

Lemma runs_like (runs : list value) :
  forallb runLike runs = true ->
  (contents <- mapM runContent runs ;; joinValues "" contents)
  = Return (String.concat "" (map runText runs)).
Proof.
  intros H.
  assert (M : mapM runContent runs = Return (map VString (map runText runs))).
  { induction runs as [|rt runs IH]; simpl in *; [reflexivity|].
    apply andb_prop in H as [H1 H2].
    now rewrite (runContent_like _ H1), (IH H2). }
  rewrite M. simpl. apply joinValues_strings.
Qed.

Lemma blockText_like (b : value) :
  blockLike b = true ->
  blockText b
  = Return (match payloadRuns b with
            | Some runs =>
                let line := String.concat "" (map runText runs) in
                if isEmpty line then [] else [line]
            | None => []
            end).
Proof.
  destruct b as [| | | | |items|props|name]; try discriminate.
  unfold blockLike, blockText, payloadRuns, optGet, get.
  destruct (lookup "type" props) as [[| | | |type|?|?|?]|]; try discriminate.
  simpl.
  destruct (lookup type props) as [[| | | | |?|payload|?]|]; try discriminate.
  - reflexivity.
  - simpl.
    destruct (lookup "rich_text" payload) as [[| | | | |runs|?|?]|];
      try discriminate; try reflexivity.
    intros H. simpl.
    pose proof (runs_like _ H) as J.
    destruct (mapM runContent runs) as [contents|]; simpl in *;
      [|discriminate].
    now rewrite J.
  - intros _.
    match goal with
    | |- context [if ?c then Return (VFunction _) else _] => destruct c
    end; [reflexivity|].
    destruct (type =? "__proto__"); reflexivity.
Qed.

Lemma blocksToPlainText_like (blocks : list value) :
  forallb blockLike blocks = true ->
  mapM blockText blocks
  = Return (map (fun b => match payloadRuns b with
                          | Some runs =>
                              let line := String.concat "" (map runText runs) in
                              if isEmpty line then [] else [line]
                          | None => []
                          end) blocks).
Proof.
  induction blocks as [|b blocks IH]; simpl; [reflexivity|].
  intros H. apply andb_prop in H as [H1 H2].
  now rewrite (blockText_like _ H1), (IH H2).
Qed.

End PlainText.

(** C9 fails on a record whose type names a payload that is not
    recognisable: with [rich_text] a string the extractor calls [map] on
    it and throws, where the contract lets the block contribute nothing.
    The guard is the one the run renderer has ([Array.isArray]): it gives
    the empty string for the same payload, and [blocksToMarkdown] returns
    on the same record.  A run that is null makes the extractor throw as
    well. *)
Theorem C9_non_array_payload_throws :
  blocksToPlainText
    [VObject [("type", VString "paragraph");
              ("paragraph", VObject [("rich_text", VString "oops")])]]
  = ThrowTypeError /\
  blockText
    (VObject [("type", VString "paragraph");
              ("paragraph", VObject [("rich_text", VString "oops")])])
  <> Return [] /\
  richTextToMarkdown (VString "oops") = Return "" /\
  blocksToMarkdown
    [VObject [("type", VString "paragraph");
              ("paragraph", VObject [("rich_text", VString "oops")])]]
  = Return "" /\
  blocksToPlainText
    [VObject [("type", VString "paragraph");
              ("paragraph", VObject [("rich_text", VArray [VNull])])]]
  = ThrowTypeError.
Proof. repeat apply conj; solve [reflexivity | discriminate]. Qed.

(** X19: on records that are block-like in the sense of [blockLike] (an
    object with a string type whose payload under that name is missing,
    null, or an object whose [rich_text] is missing, null or an array of
    run-like records) [blocksToPlainText] returns, joined by single line
    feeds, one line per block that carries a [rich_text] array whose runs
    have some content: the concatenation of the [content] of its runs.
    A block without such an array contributes nothing, and the empty
    sequence gives the empty string. *)
Theorem X19_plain_text_of_block_like_records (blocks : list value) :
  forallb blockLike blocks = true ->
  blocksToPlainText blocks = Return (Str.join Str.nl (plainLines blocks)) /\
  blocksToPlainText [] = Return "".
Proof.
  intros H. split; [|reflexivity].
  unfold blocksToPlainText. rewrite (blocksToPlainText_like _ H). simpl.
  unfold plainLines. now rewrite flat_map_concat_map.
Qed.

Lemma X19_plain_text_of_block_like_records_witness :
  blocksToPlainText
    [blockValue (RichTextBlock "paragraph" [plainRun "Hello"]);
     VObject [("type", VString "paragraph")];
     blockValue DividerBlock;
     blockValue (RichTextBlock "heading_1"
                   (parseInlineFormatting "big **World**"))]
  = Return ("Hello" ++ Str.nl ++ "big World").
Proof.
  apply (X19_plain_text_of_block_like_records
           [blockValue (RichTextBlock "paragraph" [plainRun "Hello"]);
            VObject [("type", VString "paragraph")];
            blockValue DividerBlock;
            blockValue (RichTextBlock "heading_1"
                          (parseInlineFormatting "big **World**"))]).
  reflexivity.
Defined.

(* ================================================================== *)
(** * Further properties of the converter *)

(* ------------------------------------------------------------------ *)
(** ** Splitting into lines and joining them again *)

Section Lines.
Import Str StrFacts.

Lemma split_nl_not_nil (s : string) : split_nl s <> [].
Proof.
  induction s as [|c s IH]; simpl; [discriminate|].
  destruct (Ascii.eqb c LF); [discriminate|].
  destruct (split_nl s); [contradiction | discriminate].
Qed.

Lemma split_nl_lines (s : string) :
  Forall (fun l => singleLine l = true) (split_nl s).
Proof.
  induction s as [|c s IH]; simpl; [now repeat constructor|].
  destruct (Ascii.eqb c LF) eqn:E; [now constructor|].
  destruct (split_nl s) as [|h t]; [now repeat constructor; simpl; rewrite E|].
  inversion IH; subst. constructor; [simpl; now rewrite E | assumption].
Qed.

Lemma split_nl_cons (x rest : string) :
  singleLine x = true ->
  split_nl (x ++ String LF rest) = x :: split_nl rest.
Proof.
  induction x as [|c x IH]; simpl; [reflexivity|].
  destruct (Ascii.eqb c LF); simpl; [discriminate|].
  intros H. now rewrite (IH H).
Qed.

(** [lines.join('\n').split('\n')] gives [lines] back, for a list of
    lines that is not empty. *)
Lemma split_nl_join (lines : list string) :
  lines <> [] ->
  Forall (fun l => singleLine l = true) lines ->
  split_nl (join nl lines) = lines.
Proof.
  induction lines as [|x lines IH]; [congruence|].
  intros _ H. inversion H as [|? ? Hx Hl]; subst.
  destruct lines as [|y lines].
  - simpl. now apply split_nl_singleLine.
  - change (join nl (x :: y :: lines)) with (x ++ nl ++ join nl (y :: lines)).
    unfold nl at 1. simpl append.
    rewrite (split_nl_cons _ _ Hx). f_equal. apply IH; [discriminate | exact Hl].
Qed.

(** Outside a fence, lines that are not markers pile up in
    [textContent]. *)
Lemma fold_prose (body : list string) (st : splitter) :
  inCodeBlock st = false ->
  fences body = 0 ->
  fold_left splitStep body st
  = mkSplitter (parts st) false (codeContent st)
               (codeLanguage st) (textContent st ++ body).
Proof.
  revert st. induction body as [|l body IH]; intros st Hin Hf; simpl.
  - rewrite app_nil_r. destruct st; simpl in *. now subst.
  - unfold fences in Hf. simpl in Hf.
    destruct (isFence l) eqn:F; [discriminate|].
    rewrite IH.
    + unfold splitStep. unfold isFence in F. rewrite F, Hin. simpl.
      now rewrite <- app_assoc.
    + rewrite splitStep_inCodeBlock, Hin, F. reflexivity.
    + exact Hf.
Qed.

Lemma splitLines_prose (lines : list string) :
  lines <> [] -> fences lines = 0 ->
  splitLines lines = [mkPart (join nl lines) false None].
Proof.
  intros Hne Hf. unfold splitLines.
  rewrite fold_prose by (reflexivity || assumption).
  unfold splitFinish. simpl. now destruct lines.
Qed.

Lemma partBlocks_prose (lines : list string) :
  lines <> [] ->
  Forall (fun l => singleLine l = true) lines ->
  partBlocks (mkPart (join nl lines) false None) = flat_map lineBlocks lines.
Proof.
  intros Hne Hl. unfold partBlocks. simpl.
  now rewrite (split_nl_join _ Hne Hl).
Qed.

(** A line is dropped exactly when it is blank. *)
Lemma lineToBlock_blank (line : string) :
  if isBlank line then lineToBlock line = None
  else exists block, lineToBlock line = Some block.
Proof.
  unfold isBlank, lineToBlock. cbv zeta. set (t := trim line).
  destruct (isEmpty t); [reflexivity|].
  destruct (startsWith t "# "); [eauto|].
  destruct (startsWith t "## "); [eauto|].
  destruct (startsWith t "### "); [eauto|].
  destruct (startsWith t "- [ ] " || startsWith t "- [x] ")%bool; [eauto|].
  destruct (startsWith t "- " || startsWith t "* ")%bool; [eauto|].
  destruct (Re.matchAnchored Re.numberedRe t); [eauto|].
  destruct (startsWith t "> "); [eauto|].
  destruct ((t =? "---") || (t =? "***") || (t =? "___"))%bool; eauto.
Qed.

Lemma lineBlocks_length (line : string) :
  List.length (lineBlocks line) = if isBlank line then 0 else 1.
Proof.
  pose proof (lineToBlock_blank line) as H. unfold lineBlocks.
  destruct (isBlank line); [now rewrite H|].
  destruct H as [block ->]. reflexivity.
Qed.

End Lines.

Lemma markdownToBlocks_prose (markdown : string) :
  fences (Str.split_nl markdown) = 0 ->
  markdownToBlocks markdown = flat_map lineBlocks (Str.split_nl markdown).
Proof.
  intros Hf. unfold markdownToBlocks, parseCodeBlocks.
  rewrite (splitLines_prose _ (split_nl_not_nil markdown) Hf). simpl.
  rewrite app_nil_r.
  apply partBlocks_prose; [apply split_nl_not_nil | apply split_nl_lines].
Qed.

(** X1: in a markdown text without fence markers every line is
    classified on its own: the blocks are those of the lines, in order,
    one for each line that is not blank once trimmed and none for a blank
    one. *)
Theorem X1_one_block_per_line (markdown : string) :
  fences (Str.split_nl markdown) = 0 ->
  markdownToBlocks markdown = flat_map lineBlocks (Str.split_nl markdown) /\
  List.length (markdownToBlocks markdown)
  = List.length (filter (fun l => negb (isBlank l)) (Str.split_nl markdown)).
Proof.
  intros Hf. pose proof (markdownToBlocks_prose markdown Hf) as E.
  split; [exact E|]. rewrite E. clear E Hf.
  induction (Str.split_nl markdown) as [|l lines IH]; [reflexivity|].
  simpl. rewrite length_app, IH, lineBlocks_length.
  now destruct (isBlank l).
Qed.

Lemma X1_one_block_per_line_witness :
  List.length (markdownToBlocks ("- a" ++ Str.nl ++ "  " ++ Str.nl ++ "- b")) = 2.
Proof.
  apply (proj2 (X1_one_block_per_line
                  ("- a" ++ Str.nl ++ "  " ++ Str.nl ++ "- b") eq_refl)).
Defined.

(* ------------------------------------------------------------------ *)
(** ** Closed fences *)

Section ClosedFence.
Import Str StrFacts.

Lemma splitStep_withParts (ps : list part) (st : splitter) (line : string) :
  splitStep (withParts ps st) line = withParts ps (splitStep st line).
Proof.
  unfold splitStep, withParts. simpl.
  destruct (startsWith line "```"), (inCodeBlock st); simpl;
    try reflexivity.
  - now rewrite app_assoc.
  - destruct (isNil (textContent st)); [reflexivity | now rewrite app_assoc].
Qed.

Lemma fold_withParts (lines : list string) (ps : list part) (st : splitter) :
  fold_left splitStep lines (withParts ps st)
  = withParts ps (fold_left splitStep lines st).
Proof.
  revert st. induction lines as [|l lines IH]; intros st; simpl; [reflexivity|].
  now rewrite splitStep_withParts, IH.
Qed.

Lemma splitFinish_withParts (ps : list part) (st : splitter) :
  splitFinish (withParts ps st) = (ps ++ splitFinish st)%list.
Proof.
  unfold splitFinish, withParts. simpl.
  destruct (isNil (textContent st)), (isNil (codeContent st));
    now rewrite ?app_assoc.
Qed.

(** The state right after a marker that opens a fence. *)
Lemma fold_opening (before : list string) (opening : string) :
  Nat.even (fences before) = true ->
  isFence opening = true ->
  fold_left splitStep (before ++ [opening]) splitInit
  = mkSplitter (splitLines before) true [] (trim (drop 3 opening)) [].
Proof.
  intros Heven Hfence. rewrite fold_left_app. simpl.
  unfold splitLines. set (st := fold_left splitStep before splitInit).
  assert (Hin : inCodeBlock st = false).
  { unfold st. rewrite fold_inCodeBlock. simpl.
    now rewrite <- Nat.negb_even, Heven. }
  assert (Hcode : codeContent st = []).
  { pose proof (fold_inv before splitInit eq_refl) as I.
    fold st in I. unfold splitterInv in I. now rewrite Hin in I. }
  unfold splitStep, splitFinish. unfold isFence in Hfence.
  rewrite Hfence, Hin, Hcode. simpl.
  destruct (isNil (textContent st)) eqn:N; [|reflexivity].
  now destruct (textContent st).
Qed.

(** A marker met inside a fence closes it and emits the code part. *)
Lemma splitStep_closing (st : splitter) (closing : string) :
  isFence closing = true ->
  inCodeBlock st = true ->
  splitStep st closing
  = mkSplitter
      (parts st ++ [mkPart (join nl (codeContent st)) true
                           (Some (orPlainText (codeLanguage st)))])%list
      false [] "" (textContent st).
Proof.
  intros Hf Hin. unfold splitStep. unfold isFence in Hf. now rewrite Hf, Hin.
Qed.

(** A fence that is opened and closed: the parts before it, one code
    part, and the parts of what follows, split on its own. *)
Lemma splitLines_closed (before body after : list string)
      (opening closing : string) :
  Nat.even (fences before) = true ->
  isFence opening = true ->
  fences body = 0 ->
  isFence closing = true ->
  splitLines (before ++ opening :: body ++ closing :: after)
  = (splitLines before
       ++ mkPart (join nl body) true
                 (Some (orPlainText (trim (drop 3 opening))))
       :: splitLines after)%list.
Proof.
  intros Heven Hopen Hbody Hclose.
  replace (before ++ opening :: body ++ closing :: after)%list
    with ((before ++ [opening]) ++ body ++ closing :: after)%list
    by now rewrite <- app_assoc.
  unfold splitLines at 1.
  rewrite fold_left_app, (fold_opening _ _ Heven Hopen), fold_left_app.
  rewrite (fold_fenced body) by (reflexivity || assumption).
  cbn [fold_left parts codeContent codeLanguage textContent app].
  rewrite splitStep_closing by (reflexivity || assumption).
  cbn [parts codeContent codeLanguage textContent].
  replace (mkSplitter
             (splitLines before
                ++ [mkPart (join nl body) true
                           (Some (orPlainText (trim (drop 3 opening))))])%list
             false [] "" [])
    with (withParts
            (splitLines before
               ++ [mkPart (join nl body) true
                          (Some (orPlainText (trim (drop 3 opening))))])%list
            splitInit)
    by (unfold withParts; simpl; now rewrite app_nil_r).
  rewrite fold_withParts, splitFinish_withParts.
  now rewrite <- app_assoc.
Qed.

End ClosedFence.

(** X2: a fence that is opened and closed is cut out on its own: when
    the lines of the input are [before], a marker that opens a fence,
    [body] without marker, a closing marker and [after], the segments are
    those of [before], one code segment holding [body] with the language
    of the opening marker (or "plain text"), and those of [after] split as
    if it stood alone; the blocks follow the same division.  An empty
    [body] still gives a code block, with empty content. *)
Theorem X2_closed_fence_isolated
        (markdown : string) (before body after : list string)
        (opening closing : string) :
  Str.split_nl markdown = (before ++ opening :: body ++ closing :: after)%list ->
  Nat.even (fences before) = true ->
  isFence opening = true ->
  fences body = 0 ->
  isFence closing = true ->
  let language := orPlainText (Str.trim (Str.drop 3 opening)) in
  parseCodeBlocks markdown
  = (splitLines before
       ++ mkPart (Str.join Str.nl body) true (Some language)
       :: splitLines after)%list /\
  markdownToBlocks markdown
  = (flat_map partBlocks (splitLines before)
       ++ CodeBlock [plainRun (Str.join Str.nl body)] language
       :: flat_map partBlocks (splitLines after))%list.
Proof.
  intros Hlines Heven Hopen Hbody Hclose language.
  assert (P : parseCodeBlocks markdown
              = (splitLines before
                   ++ mkPart (Str.join Str.nl body) true (Some language)
                   :: splitLines after)%list).
  { unfold parseCodeBlocks. rewrite Hlines. now apply splitLines_closed. }
  split; [exact P|].
  unfold markdownToBlocks. rewrite P, flat_map_app. simpl.
  unfold partBlocks at 2. simpl. unfold language.
  now rewrite orPlainText_idem.
Qed.

Lemma X2_closed_fence_isolated_witness :
  markdownToBlocks ("a" ++ Str.nl ++ "```" ++ Str.nl ++ "```" ++ Str.nl ++ "b")
  = [RichTextBlock "paragraph" [plainRun "a"];
     CodeBlock [plainRun ""] "plain text";
     RichTextBlock "paragraph" [plainRun "b"]].
Proof.
  apply (proj2 (X2_closed_fence_isolated
                  ("a" ++ Str.nl ++ "```" ++ Str.nl ++ "```" ++ Str.nl ++ "b")
                  ["a"] [] ["b"] "```" "```"
                  eq_refl eq_refl eq_refl eq_refl eq_refl)).
Defined.

(* ------------------------------------------------------------------ *)
(** ** Shapes of the runs *)

Section RunShapes.
Import Str StrFacts.

Lemma allChars_app (p : ascii -> bool) (a b : string) :
  allChars p (a ++ b) = allChars p a && allChars p b.
Proof.
  induction a as [|c a IH]; simpl; [reflexivity|].
  now rewrite IH, andb_assoc.
Qed.

(** What a lazy [+] captured lies in its class. *)
Lemma lazy_plus_class {R} (p : ascii -> bool)
      (k : string -> string -> option R) (s acc : string) (r : R) :
  Re.lazy_plus p k acc s = Some r ->
  exists c t, s = c ++ t /\ c <> "" /\ allChars p c = true /\
              k (acc ++ c) t = Some r.
Proof.
  revert acc. induction s as [|x s IH]; intros acc; simpl; [discriminate|].
  destruct (p x) eqn:P; [|discriminate].
  destruct (k (acc ++ String x "") s) eqn:K.
  - intros [= ->]. exists (String x ""), s. simpl. rewrite P.
    repeat split; [discriminate | exact K].
  - intros H. destruct (IH _ H) as (c & t & -> & _ & Hc & Hk).
    exists (String x c), t. simpl. rewrite P, Hc.
    repeat split; [discriminate|]. now rewrite append_snoc in Hk.
Qed.

Lemma delimited_capture (open close s : string) (g : Re.groups) :
  Re.delimited open close s = Some g ->
  Re.g1 g <> "" /\ allChars Re.dot (Re.g1 g) = true.
Proof.
  unfold Re.delimited. intros H.
  apply ReFacts.lit_inv in H as (t & -> & H).
  apply lazy_plus_class in H as (c & t' & -> & Hc & Hp & H).
  apply ReFacts.lit_inv in H as (t'' & -> & [= <-]). simpl. auto.
Qed.

Lemma linkRe_capture (s : string) (g : Re.groups) :
  Re.linkRe s = Some g ->
  Re.g1 g <> "" /\ exists u, Re.g2 g = Some u /\ u <> "".
Proof.
  unfold Re.linkRe. intros H.
  apply ReFacts.lit_inv in H as (t & -> & H).
  apply ReFacts.greedy_plus_inv in H as (c & t' & -> & Hc & H).
  apply ReFacts.lit_inv in H as (t'' & -> & H).
  apply ReFacts.greedy_plus_inv in H as (u & t3 & -> & Hu & H).
  apply ReFacts.lit_inv in H as (t4 & -> & [= <-]). simpl. eauto.
Qed.

(** The run pushed for a match is an annotated run or a link. *)
Lemma findEarliest_shape (remaining : string) (e : candidate) :
  findEarliest remaining = Some e ->
  runShape (richTextOf e) /\ isPlain (richTextOf e) = false.
Proof.
  intros H. split; [|reflexivity].
  pose proof (selection_fold remaining patterns) as S.
  fold (findEarliest remaining) in S. rewrite H in S.
  destruct S as (j & re & m & Hn & He & -> & _).
  apply ReFacts.execFrom_inv in He as (pre & t & g & _ & Hre & _ & _ & H1 & H2).
  assert (D : forall a d, a <> Link -> Re.delimited d d t = Some g ->
                          runShape (richTextOf (candidateOf a m))).
  { intros a d Ha Hd. apply delimited_capture in Hd as [Hne Hdot].
    right; left. exists a, (Re.g1 g). repeat split; auto.
    destruct a; try congruence; unfold richTextOf; simpl; now rewrite H1. }
  do 4 (destruct j as [|j];
        [ injection Hn as <- Ha; rewrite <- Ha in *;
          eapply D; [discriminate | exact Hre] | ]).
  destruct j as [|j]; [|now destruct j].
  injection Hn as <- Ha. rewrite <- Ha.
  apply linkRe_capture in Hre as (Hne & u & Hu & Hune).
  right; right. exists (Re.g1 g), u. repeat split; auto.
  unfold richTextOf, candidateOf; simpl. rewrite H1, H2, Hu.
  now destruct u.
Qed.

Lemma splitsAt_prefix (remaining : string) (e : candidate) :
  splitsAt remaining e -> 0 < index e -> take (index e) remaining <> "".
Proof.
  intros (pre & src & post & -> & Hi & _) Hpos.
  rewrite Hi, take_app. destruct pre; [simpl in Hi; lia | discriminate].
Qed.

Lemma noAdjacentPlain_cons (r : NotionRichText) (l : list NotionRichText) :
  isPlain r = false -> noAdjacentPlain l -> noAdjacentPlain (r :: l).
Proof. intros Hr Hl. destruct l; simpl; [exact I | now rewrite Hr]. Qed.

Lemma noAdjacentPlain_after (r1 r2 : NotionRichText)
      (l : list NotionRichText) :
  isPlain r2 = false -> noAdjacentPlain (r2 :: l) ->
  noAdjacentPlain (r1 :: r2 :: l).
Proof.
  intros H2 Hl.
  change ((isPlain r1 && isPlain r2 = false) /\ noAdjacentPlain (r2 :: l)).
  now rewrite H2, andb_false_r.
Qed.

Lemma scan_shapes (fuel : nat) (remaining : string)
      (runs : list NotionRichText) :
  scan fuel remaining = Some runs ->
  Forall runShape runs /\ noAdjacentPlain runs /\
  (remaining <> "" -> runs <> []).
Proof.
  revert remaining runs.
  induction fuel as [|fuel IH]; intros remaining runs; simpl; [discriminate|].
  destruct (isEmpty remaining) eqn:E.
  - intros [= <-]. apply isEmpty_true in E. subst remaining.
    split; [constructor|]. split; [exact I | congruence].
  - destruct (findEarliest remaining) as [e|] eqn:F.
    + destruct (scan fuel (drop (index e + mlength e) remaining))
        as [rest|] eqn:Sc; [|discriminate].
      intros [= <-]. destruct (IH _ _ Sc) as (Hs & Ha & _).
      destruct (findEarliest_shape _ _ F) as [Hshape Hnp].
      pose proof (noAdjacentPlain_cons _ _ Hnp Ha) as Hcons.
      destruct (Nat.ltb_spec 0 (index e)) as [Hpos|_]; cbn [app].
      * split; [|split; [|discriminate]].
        { constructor; [|now constructor]. left.
          exists (take (index e) remaining). split; [|reflexivity].
          apply splitsAt_prefix; [now apply findEarliest_splits | exact Hpos]. }
        now apply noAdjacentPlain_after.
      * split; [now constructor|]. split; [exact Hcons | discriminate].
    + intros [= <-]. repeat split; [|discriminate].
      constructor; [|constructor]. left. exists remaining.
      split; [|reflexivity]. now destruct remaining.
Qed.

End RunShapes.

(** X3: the runs of a non-empty string are each of one of three kinds:
    plain text, text under exactly one annotation (with a null link, and
    without line terminator), or a link without annotation; none has an
    empty content or an empty url, and no two plain runs are neighbours. *)
Theorem X3_run_shapes (s : string) :
  s <> "" ->
  Forall runShape (parseInlineFormatting s) /\
  noAdjacentPlain (parseInlineFormatting s).
Proof.
  intros Hs. destruct (parseInlineFormatting_scan s) as (runs & Hscan & ->).
  destruct (scan_shapes _ _ _ Hscan) as (Hshape & Hadj & Hne).
  destruct runs as [|r runs]; [now elim (Hne Hs) | split; assumption].
Qed.

Lemma X3_run_shapes_witness :
  Forall runShape (parseInlineFormatting "a **b** [c](d)") /\
  noAdjacentPlain (parseInlineFormatting "a **b** [c](d)").
Proof.
  apply (X3_run_shapes "a **b** [c](d)"). discriminate.
Defined.

(* ------------------------------------------------------------------ *)
(** ** What markdownToBlocks produces, and the renderers on it *)

Section Produced.
Import Str StrFacts.

Arguments parseInlineFormatting : simpl never.

Lemma lineToBlock_produced (line : string) (b : NotionBlock) :
  lineToBlock line = Some b -> producedBlock b.
Proof.
  unfold lineToBlock. cbv zeta. set (t := trim line).
  destruct (isEmpty t); [discriminate|].
  destruct (startsWith t "# ");
    [intros [= <-]; simpl; unfold richTextTypes; simpl; eauto 10|].
  destruct (startsWith t "## ");
    [intros [= <-]; simpl; unfold richTextTypes; simpl; eauto 10|].
  destruct (startsWith t "### ");
    [intros [= <-]; simpl; unfold richTextTypes; simpl; eauto 10|].
  destruct (startsWith t "- [ ] " || startsWith t "- [x] ")%bool;
    [intros [= <-]; simpl; eauto|].
  destruct (startsWith t "- " || startsWith t "* ")%bool;
    [intros [= <-]; simpl; unfold richTextTypes; simpl; eauto 10|].
  destruct (Re.matchAnchored Re.numberedRe t);
    [intros [= <-]; simpl; unfold richTextTypes; simpl; eauto 10|].
  destruct (startsWith t "> ");
    [intros [= <-]; simpl; unfold richTextTypes; simpl; eauto 12|].
  destruct ((t =? "---") || (t =? "***") || (t =? "___"))%bool;
    intros [= <-]; simpl; unfold richTextTypes; simpl; eauto 10.
Qed.

Lemma orPlainText_not_empty (x : string) : orPlainText x <> "".
Proof. destruct x; discriminate. Qed.

Lemma partBlocks_produced (p : part) :
  Forall producedBlock (partBlocks p).
Proof.
  unfold partBlocks. destruct (isCode p).
  - constructor; [|constructor]. simpl. split; [eauto|].
    destruct (planguage p); [apply orPlainText_not_empty | discriminate].
  - induction (split_nl (pcontent p)) as [|l ls IH]; simpl; [constructor|].
    destruct (lineToBlock l) eqn:E; simpl; [|exact IH].
    constructor; [now apply (lineToBlock_produced l) | exact IH].
Qed.

Lemma markdownToBlocks_produced (markdown : string) :
  Forall producedBlock (markdownToBlocks markdown).
Proof.
  unfold markdownToBlocks.
  induction (parseCodeBlocks markdown) as [|p ps IH]; simpl; [constructor|].
  apply Forall_app. split; [apply partBlocks_produced | exact IH].
Qed.

Lemma parseInlineFormatting_not_nil (s : string) :
  parseInlineFormatting s <> [].
Proof.
  destruct (parseInlineFormatting_scan s) as (runs & _ & ->).
  destruct runs; discriminate.
Qed.

Lemma produced_dataModel (b : NotionBlock) :
  producedBlock b -> dataModelBlock b.
Proof.
  destruct b as [type rt|rt checked|rt language|]; simpl; auto.
  - intros [Hin [s ->]]. split; [exact Hin | apply parseInlineFormatting_not_nil].
  - intros [s ->]. apply parseInlineFormatting_not_nil.
Qed.

(** The lines the renderer writes for a produced block. *)
Lemma blockLines_produced (b : NotionBlock) :
  producedBlock b -> exists lines, blockLines (blockValue b) = Return lines.
Proof.
  intros H. destruct b as [type rt|rt checked|rt language|];
    simpl in H; revert H.
  - intros [Hin [s ->]]. unfold richTextTypes in Hin. simpl in Hin.
    assert (E : exists prefix, forall rt,
                 blockLines (blockValue (RichTextBlock type rt))
                 = (r <- richTextToMarkdown (richTextArray rt) ;;
                    Return [prefix ++ r])).
    { repeat (destruct Hin as [<-|Hin]; [eexists; intros; reflexivity|]).
      contradiction. }
    destruct E as [prefix E]. rewrite E, render_parse. simpl. eauto.
  - intros [s ->].
    assert (E : forall rt,
               blockLines (blockValue (ToDoBlock rt checked))
               = (r <- richTextToMarkdown (richTextArray rt) ;;
                  Return [(if checked then "- [x] " else "- [ ] ") ++ r])).
    { intros rt. now destruct checked. }
    rewrite E, render_parse. simpl. eauto.
  - intros [[c ->] Hl]. destruct language as [|x language]; [congruence|].
    destruct c; eexists; reflexivity.
  - intros _. eexists. reflexivity.
Qed.

Lemma mapM_returns {A B} (f : A -> completion B) (l : list A) :
  Forall (fun x => exists y, f x = Return y) l ->
  exists ys, mapM f l = Return ys.
Proof.
  induction 1 as [|x l [y Hy] _ [ys IH]]; simpl; [eauto|].
  rewrite Hy, IH. simpl. eauto.
Qed.

(** The content of a run of the forward pipeline, read by the extractor. *)
Lemma runContent_typed (r : NotionRichText) :
  runContent (richTextValue r) = Return (VString (content (text r))).
Proof.
  destruct r as [[c l] a]. destruct c, l, a; reflexivity.
Qed.

Lemma runs_typed (rt : list NotionRichText) :
  (cs <- mapM runContent (map richTextValue rt) ;; joinValues "" cs)
  = Return (contents rt).
Proof.
  assert (M : mapM runContent (map richTextValue rt)
              = Return (map VString (map (fun r => content (text r)) rt))).
  { induction rt as [|r rt IH]; cbn [map mapM]; [reflexivity|].
    now rewrite runContent_typed, IH. }
  rewrite M. simpl. apply joinValues_strings.
Qed.

Lemma blockText_array (type : string) (rt : list NotionRichText)
      (more : list (string * value)) :
  type <> "object" -> type <> "type" ->
  blockText
    (VObject [("object", VString "block"); ("type", VString type);
              (type, VObject (("rich_text", richTextArray rt) :: more))])
  = Return (if isEmpty (contents rt) then [] else [contents rt]).
Proof.
  intros H1 H2. unfold blockText. simpl.
  apply String.eqb_neq in H1, H2. rewrite H1, H2, String.eqb_refl. simpl.
  unfold richTextArray.
  pose proof (runs_typed rt) as J.
  destruct (mapM runContent (map richTextValue rt)) as [cs|]; simpl in *;
    [|discriminate].
  now rewrite J.
Qed.

Lemma blockText_produced (b : NotionBlock) :
  producedBlock b ->
  blockText (blockValue b)
  = Return (if isEmpty (blockContents b) then [] else [blockContents b]).
Proof.
  intros H. destruct b as [type rt|rt checked|rt language|];
    simpl in H; revert H; unfold blockContents; cbn [blockRuns blockValue].
  - intros [Hin _]. apply blockText_array.
    + intros ->. unfold richTextTypes in Hin. simpl in Hin.
      intuition discriminate.
    + intros ->. unfold richTextTypes in Hin. simpl in Hin.
      intuition discriminate.
  - intros _. apply blockText_array; discriminate.
  - intros _. apply blockText_array; discriminate.
  - intros _. reflexivity.
Qed.

Lemma concat_optional {A} (f : A -> string) (l : list A) :
  concat (map (fun x => if isEmpty (f x) then [] else [f x]) l)
  = filter (fun s => negb (isEmpty s)) (map f l).
Proof.
  induction l as [|x l IH]; simpl; [reflexivity|].
  destruct (isEmpty (f x)); simpl; now rewrite IH.
Qed.

End Produced.

(** X4: every block [markdownToBlocks] returns obeys the data model: its
    type is one of the ten known ones; unless it is a divider it holds at
    least one run; a code block holds its body as a single plain run and
    a language that is never empty. *)
Theorem X4_blocks_obey_data_model (markdown : string) :
  Forall dataModelBlock (markdownToBlocks markdown).
Proof.
  eapply Forall_impl; [|apply markdownToBlocks_produced].
  apply produced_dataModel.
Qed.

(** X5: [blocksToMarkdown] never throws on what [markdownToBlocks]
    returns: the round trip of every markdown text gives a string. *)
Theorem X5_round_trip_returns (markdown : string) :
  exists out, roundTrip markdown = Return out.
Proof.
  unfold roundTrip, blocksToMarkdown.
  destruct (mapM_returns blockLines (map blockValue (markdownToBlocks markdown)))
    as [lines E].
  - apply Forall_map. eapply Forall_impl; [|apply markdownToBlocks_produced].
    apply blockLines_produced.
  - rewrite E. simpl. eauto.
Qed.

(** X6: the plain text of a converted markdown text is, line by line, the
    text of its blocks with all markup left out: the [content] of the runs
    of each block, concatenated, blocks without text (dividers, empty code)
    left out, joined by single line feeds. *)
Theorem X6_plain_text_of_markdown (markdown : string) :
  blocksToPlainText (map blockValue (markdownToBlocks markdown))
  = Return (Str.join Str.nl
              (filter (fun s => negb (Str.isEmpty s))
                      (map blockContents (markdownToBlocks markdown)))).
Proof.
  unfold blocksToPlainText.
  assert (M : forall bs, Forall producedBlock bs ->
                mapM blockText (map blockValue bs)
                = Return (map (fun b => if Str.isEmpty (blockContents b)
                                        then [] else [blockContents b]) bs)).
  { induction 1 as [|b bs Hb _ IH]; simpl; [reflexivity|].
    now rewrite (blockText_produced _ Hb), IH. }
  rewrite (M _ (markdownToBlocks_produced markdown)). simpl.
  now rewrite concat_optional.
Qed.

(* ------------------------------------------------------------------ *)
(** ** Numbered items *)

Section Numbered.
Import Str StrFacts.

Arguments parseInlineFormatting : simpl never.

(** A greedy [+] takes the whole run of its class when the continuation
    accepts what follows the run. *)
Lemma greedy_plus_intro {R} (p : ascii -> bool)
      (k : string -> string -> option R) (w t acc : string) (r : R) :
  w <> "" -> allChars p w = true -> stopsAt p t = true ->
  k (acc ++ w) t = Some r ->
  Re.greedy_plus p k acc (w ++ t) = Some r.
Proof.
  revert acc. induction w as [|x w IH]; intros acc Hne Hall Hstop Hk;
    [congruence|].
  simpl in Hall. apply andb_prop in Hall as [Hx Hw].
  simpl. rewrite Hx. destruct w as [|y w].
  - simpl. assert (G : Re.greedy_plus p k (acc ++ String x "") t = None).
    { destruct t as [|c t]; [reflexivity|]. simpl in *.
      now destruct (p c). }
    now rewrite G.
  - rewrite (IH (acc ++ String x "")); [reflexivity | discriminate | exact Hw
                                        | exact Hstop |].
    now rewrite append_snoc.
Qed.

Lemma numberedRe_intro (digits ws item : string) :
  digits <> "" -> allChars isDigit digits = true ->
  ws <> "" -> allChars isWhiteSpace ws = true ->
  item <> "" -> allChars Re.dot item = true ->
  stopsAt isWhiteSpace item = true ->
  Re.matchAnchored Re.numberedRe (digits ++ "." ++ ws ++ item)
  = Some (Re.mkResult 0 (digits ++ "." ++ ws ++ item) digits (Some item)).
Proof.
  intros Hd Hda Hw Hwa Hi Hia Hstop.
  assert (E : Re.numberedRe (digits ++ "." ++ ws ++ item)
              = Some (Re.mkGroups digits (Some item) "")).
  { unfold Re.numberedRe.
    apply greedy_plus_intro; [exact Hd | exact Hda | reflexivity|].
    rewrite ReFacts.lit_intro.
    apply greedy_plus_intro; [exact Hw | exact Hwa | exact Hstop|].
    rewrite <- (append_nil_r item) at 1.
    apply greedy_plus_intro; [exact Hi | exact Hia | reflexivity|].
    reflexivity. }
  unfold Re.matchAnchored. rewrite E. simpl.
  rewrite Nat.sub_0_r.
  rewrite <- (append_nil_r (digits ++ "." ++ ws ++ item)) at 2.
  now rewrite take_app.
Qed.

(** A line that starts with a digit starts with none of the other
    markers. *)
Lemma digit_first (d c : ascii) (s p : string) :
  isDigit d = true -> isDigit c = false ->
  startsWith (String d s) (String c p) = false.
Proof.
  intros Hd Hc. unfold startsWith. simpl.
  destruct (ascii_dec c d) as [->|]; [congruence | reflexivity].
Qed.

Lemma classify_numbered (line digits ws item : string) :
  trim line = digits ++ "." ++ ws ++ item ->
  digits <> "" -> allChars isDigit digits = true ->
  ws <> "" -> allChars isWhiteSpace ws = true ->
  item <> "" -> allChars Re.dot item = true ->
  stopsAt isWhiteSpace item = true ->
  lineToBlock line
  = Some (RichTextBlock "numbered_list_item" (parseInlineFormatting item)).
Proof.
  intros Ht Hd Hda Hw Hwa Hi Hia Hstop.
  pose proof (numberedRe_intro _ _ _ Hd Hda Hw Hwa Hi Hia Hstop) as M.
  unfold lineToBlock. rewrite Ht. cbv zeta.
  destruct digits as [|d digits]; [congruence|].
  simpl in Hda. apply andb_prop in Hda as [Hd0 _].
  change ((String d digits) ++ "." ++ ws ++ item)
    with (String d (digits ++ "." ++ ws ++ item)) in *.
  rewrite !(digit_first d) by (exact Hd0 || reflexivity).
  simpl isEmpty. cbv iota. simpl orb. cbv iota.
  now rewrite M.
Qed.

End Numbered.

(** X7: an ordered-list line is recognised whatever its number and the
    white space after the dot: when the trimmed line is digits, a dot,
    white space, and a text that does not start with white space and has
    no line terminator, the block is a [numbered_list_item] holding the
    runs of the text, and the renderer writes it back as "1. " followed by
    the text. *)
Theorem X7_numbered_item (line digits ws item : string) :
  Str.trim line = digits ++ "." ++ ws ++ item ->
  digits <> "" -> allChars Str.isDigit digits = true ->
  ws <> "" -> allChars Str.isWhiteSpace ws = true ->
  item <> "" -> allChars Re.dot item = true ->
  stopsAt Str.isWhiteSpace item = true ->
  lineToBlock line
  = Some (RichTextBlock "numbered_list_item" (parseInlineFormatting item)) /\
  blocksToMarkdown
    [blockValue (RichTextBlock "numbered_list_item"
                               (parseInlineFormatting item))]
  = Return ("1. " ++ item).
Proof.
  intros Ht Hd Hda Hw Hwa Hi Hia Hstop. split.
  - now apply (classify_numbered line digits ws item).
  - apply render_block. simpl. auto 10.
Qed.

Lemma X7_numbered_item_witness :
  lineToBlock " 12.  buy *milk*"
  = Some (RichTextBlock "numbered_list_item"
                        (parseInlineFormatting "buy *milk*")) /\
  blocksToMarkdown
    [blockValue (RichTextBlock "numbered_list_item"
                               (parseInlineFormatting "buy *milk*"))]
  = Return "1. buy *milk*".
Proof.
  apply (X7_numbered_item " 12.  buy *milk*" "12" "  " "buy *milk*");
    solve [reflexivity | discriminate].
Defined.

(* ================================================================== *)
(** * Properties of the identifier helpers *)

Module RxFacts.
Import Str StrFacts Rx.

Section Inversion.
Context {R : Type}.

(** On a run of [n] characters of its class, [{n}] takes the run. *)
Lemma times_intro (n : nat) (p : ascii -> bool)
      (k : string -> string -> option R) (w t acc : string) :
  String.length w = n -> allChars p w = true ->
  times n p k acc (w ++ t) = k (acc ++ w) t.
Proof.
  revert w acc. induction n as [|n IH]; intros w acc Hl Ha.
  - destruct w; [|discriminate]. simpl. now rewrite append_nil_r.
  - destruct w as [|x w]; [discriminate|]. simpl in *.
    apply andb_prop in Ha as [Hx Hw]. rewrite Hx.
    rewrite IH by (congruence || assumption). now rewrite append_snoc.
Qed.

Lemma times_inv (n : nat) (p : ascii -> bool)
      (k : string -> string -> option R) (s acc : string) (r : R) :
  times n p k acc s = Some r ->
  exists w t, s = w ++ t /\ String.length w = n /\ allChars p w = true /\
              k (acc ++ w) t = Some r.
Proof.
  revert s acc. induction n as [|n IH]; intros s acc; simpl.
  - intros H. exists "", s. rewrite append_nil_r. auto.
  - destruct s as [|x s]; [discriminate|].
    destruct (p x) eqn:P; [|discriminate].
    intros H. destruct (IH _ _ H) as (w & t & -> & Hl & Ha & Hk).
    exists (String x w), t. simpl. rewrite P, Ha, Hl.
    repeat split. now rewrite append_snoc in Hk.
Qed.

Lemma opt_inv (x : ascii) (k : string -> option R) (s : string) (r : R) :
  opt x k s = Some r ->
  exists d t, s = d ++ t /\ (d = "" \/ d = String x "") /\ k t = Some r.
Proof.
  unfold opt. destruct s as [|c s].
  - intros H. exists "", "". auto.
  - destruct (Ascii.eqb_spec c x) as [->|_].
    + destruct (k s) eqn:K.
      * intros [= ->]. exists (String x ""), s. auto.
      * intros H. exists "", (String x s). auto.
    + intros H. exists "", (String c s). auto.
Qed.

(** The optional character is taken when what follows it matches. *)
Lemma opt_taken (x : ascii) (k : string -> option R) (t : string) (r : R) :
  k t = Some r -> opt x k (String x t) = Some r.
Proof. intros H. unfold opt. now rewrite Ascii.eqb_refl, H. Qed.

(** It is passed over when the next character is another one. *)
Lemma opt_skipped (x c : ascii) (k : string -> option R) (t : string) :
  c <> x -> opt x k (String c t) = k (String c t).
Proof.
  intros H. unfold opt. now destruct (Ascii.eqb_spec c x).
Qed.

End Inversion.

Lemma search_inv {G} (re : string -> option (G * string)) (s : string)
      (pre : string) (g : G) (rest : string) :
  search re s = Some (pre, g, rest) ->
  exists t, s = pre ++ t /\ re t = Some (g, rest).
Proof.
  revert pre. induction s as [|c s IH]; intros pre; simpl.
  - destruct (re "") as [[g' rest']|] eqn:E; [|discriminate].
    intros [= <- <- <-]. exists "". auto.
  - destruct (re (String c s)) as [[g' rest']|] eqn:E.
    + intros [= <- <- <-]. exists (String c s). auto.
    + destruct (search re s) as [[[pre' g'] rest']|] eqn:S; [|discriminate].
      intros [= <- <- <-]. destruct (IH _ eq_refl) as (t & -> & Ht).
      exists t. auto.
Qed.

Lemma search_here {G} (re : string -> option (G * string)) (s : string)
      (g : G) (rest : string) :
  re s = Some (g, rest) -> search re s = Some ("", g, rest).
Proof. intros H. destruct s; simpl; now rewrite H. Qed.

End RxFacts.

Section Identifiers.
Import Str StrFacts Rx RxFacts Id.

(** Facts about single characters, checked on all of them. *)
Ltac all_chars c :=
  destruct c as [[] [] [] [] [] [] [] []]; vm_compute;
  try reflexivity; try discriminate; auto.

Lemma hexAny_lower (c : ascii) :
  hexAny c = true -> hexLower (lowerChar c) = true.
Proof. all_chars c. Qed.

Lemma hexAny_not_dash (c : ascii) :
  hexAny c = true -> Ascii.eqb (lowerChar c) "-" = false.
Proof. all_chars c. Qed.

Lemma hexLower_fixed (c : ascii) : hexLower c = true -> lowerChar c = c.
Proof. all_chars c. Qed.

Lemma hexLower_hexAny (c : ascii) : hexLower c = true -> hexAny c = true.
Proof. all_chars c. Qed.

Lemma hexAny_is_not_dash (c : ascii) : hexAny c = true -> c <> "-"%char.
Proof. all_chars c. Qed.

Lemma clean_app (a b : string) : clean (a ++ b) = clean a ++ clean b.
Proof.
  unfold clean. induction a as [|c a IH]; simpl; [reflexivity|].
  destruct (Ascii.eqb (lowerChar c) "-"); simpl; now rewrite IH.
Qed.

Lemma clean_hex (w : string) :
  allChars hexAny w = true ->
  clean w = toLowerCase w /\
  String.length (toLowerCase w) = String.length w /\
  allChars hexLower (toLowerCase w) = true.
Proof.
  unfold clean. induction w as [|c w IH]; simpl; [auto|].
  intros H. apply andb_prop in H as [Hc Hw].
  destruct (IH Hw) as (E & L & A).
  now rewrite (hexAny_not_dash _ Hc), (hexAny_lower _ Hc), E, L, A.
Qed.

Lemma clean_dash (x : string) : optionalDash x -> clean x = "".
Proof. now intros [->| ->]. Qed.

Lemma toLowerCase_hexLower (w : string) :
  allChars hexLower w = true -> toLowerCase w = w.
Proof.
  induction w as [|c w IH]; simpl; [reflexivity|].
  intros H. apply andb_prop in H as [Hc Hw].
  now rewrite (hexLower_fixed _ Hc), (IH Hw).
Qed.

Lemma allChars_weaken (p q : ascii -> bool) (w : string) :
  (forall c, p c = true -> q c = true) ->
  allChars p w = true -> allChars q w = true.
Proof.
  intros Hpq. induction w as [|c w IH]; simpl; [reflexivity|].
  intros H. apply andb_prop in H as [Hc Hw]. now rewrite (Hpq _ Hc), (IH Hw).
Qed.

Lemma hexGroups_lower (a b c d e : string) :
  hexGroups hexAny a b c d e ->
  hexGroups hexLower (toLowerCase a) (toLowerCase b) (toLowerCase c)
            (toLowerCase d) (toLowerCase e).
Proof.
  intros ([La Aa] & [Lb Ab] & [Lc Ac] & [Ld Ad] & [Le Ae]).
  destruct (clean_hex _ Aa) as (_ & La' & Aa').
  destruct (clean_hex _ Ab) as (_ & Lb' & Ab').
  destruct (clean_hex _ Ac) as (_ & Lc' & Ac').
  destruct (clean_hex _ Ad) as (_ & Ld' & Ad').
  destruct (clean_hex _ Ae) as (_ & Le' & Ae').
  unfold hexGroups. rewrite La', Lb', Lc', Ld', Le'. auto 10.
Qed.

(** The replacement expression finds its five groups at the start of a
    text that begins with them. *)
Lemma groupsRe_intro (a b c d e t : string) :
  hexGroups hexLower a b c d e ->
  groupsRe (a ++ b ++ c ++ d ++ e ++ t) = Some ([a; b; c; d; e], t).
Proof.
  intros ([La Aa] & [Lb Ab] & [Lc Ac] & [Ld Ad] & [Le Ae]).
  unfold groupsRe.
  rewrite (times_intro 8) by assumption.
  rewrite (times_intro 4) by assumption.
  rewrite (times_intro 4) by assumption.
  rewrite (times_intro 4) by assumption.
  rewrite (times_intro 12) by assumption.
  reflexivity.
Qed.

(** Whatever the case of the digits and wherever dashes are left out,
    [formatWithDashes] writes the canonical form. *)
Lemma formatWithDashes_groups (a b c d e x1 x2 x3 x4 : string) :
  hexGroups hexAny a b c d e ->
  optionalDash x1 -> optionalDash x2 -> optionalDash x3 -> optionalDash x4 ->
  formatWithDashes (a ++ x1 ++ b ++ x2 ++ c ++ x3 ++ d ++ x4 ++ e)
  = dashed (toLowerCase a) (toLowerCase b) (toLowerCase c)
           (toLowerCase d) (toLowerCase e).
Proof.
  intros H H1 H2 H3 H4.
  pose proof (hexGroups_lower _ _ _ _ _ H) as HL.
  destruct H as ([La Aa] & [Lb Ab] & [Lc Ac] & [Ld Ad] & [Le Ae]).
  unfold formatWithDashes. fold (clean (a ++ x1 ++ b ++ x2 ++ c ++ x3 ++ d ++ x4 ++ e)).
  rewrite !clean_app.
  rewrite (clean_dash _ H1), (clean_dash _ H2), (clean_dash _ H3),
    (clean_dash _ H4).
  rewrite (proj1 (clean_hex _ Aa)), (proj1 (clean_hex _ Ab)),
    (proj1 (clean_hex _ Ac)), (proj1 (clean_hex _ Ad)),
    (proj1 (clean_hex _ Ae)).
  simpl append.
  rewrite <- (append_nil_r (toLowerCase e)) at 1.
  rewrite (search_here groupsRe _ _ _ (groupsRe_intro _ _ _ _ _ "" HL)).
  unfold dashedGroups, dashed, join. simpl.
  now rewrite append_nil_r.
Qed.

Lemma split_at (p : ascii -> bool) (n : nat) (w : string) :
  n <= String.length w -> allChars p w = true ->
  exists a b, w = a ++ b /\ String.length a = n /\
              String.length b = String.length w - n /\
              allChars p a = true /\ allChars p b = true.
Proof.
  revert w. induction n as [|n IH]; intros w Hl Ha.
  - exists "", w. simpl. rewrite Nat.sub_0_r. auto.
  - destruct w as [|x w]; [simpl in Hl; lia|]. simpl in *.
    apply andb_prop in Ha as [Hx Hw].
    destruct (IH w ltac:(lia) Hw) as (a & b & -> & La & Lb & Aa & Ab).
    exists (String x a), b. simpl. rewrite Hx, Aa, La. auto.
Qed.

(** Thirty-two digits fall into the five groups. *)
Lemma split32 (p : ascii -> bool) (w : string) :
  String.length w = 32 -> allChars p w = true ->
  exists a b c d e, w = a ++ b ++ c ++ d ++ e /\ hexGroups p a b c d e.
Proof.
  intros L A.
  destruct (split_at p 8 w ltac:(lia) A) as (a & w1 & -> & La & L1 & Aa & A1).
  destruct (split_at p 4 w1 ltac:(lia) A1) as (b & w2 & -> & Lb & L2 & Ab & A2).
  destruct (split_at p 4 w2 ltac:(lia) A2) as (c & w3 & -> & Lc & L3 & Ac & A3).
  destruct (split_at p 4 w3 ltac:(lia) A3) as (d & e & -> & Ld & Le & Ad & Ae).
  exists a, b, c, d, e. split; [reflexivity|].
  unfold hexGroups. repeat split; auto. lia.
Qed.

Lemma hexGroups_all (p : ascii -> bool) (a b c d e : string) :
  hexGroups p a b c d e ->
  String.length (a ++ b ++ c ++ d ++ e) = 32 /\
  allChars p (a ++ b ++ c ++ d ++ e) = true.
Proof.
  intros ([La Aa] & [Lb Ab] & [Lc Ac] & [Ld Ad] & [Le Ae]).
  rewrite !length_append, !allChars_app, La, Lb, Lc, Ld, Le, Aa, Ab, Ac, Ad, Ae.
  auto.
Qed.

(** An optional dash in front of a group of digits. *)
Lemma opt_dash_group {R} (x w t : string) (n : nat)
      (k : string -> string -> option R) (r : R) :
  optionalDash x ->
  String.length w = S n -> allChars hexAny w = true ->
  k w t = Some r ->
  opt "-"%char (times (S n) hexAny k "") (x ++ w ++ t) = Some r.
Proof.
  intros [->| ->] L A K.
  - destruct w as [|c w]; [discriminate|].
    simpl in A. apply andb_prop in A as [Hc Hw].
    change ("" ++ String c w ++ t) with (String c (w ++ t)).
    rewrite opt_skipped by now apply hexAny_is_not_dash.
    change (String c (w ++ t)) with (String c w ++ t).
    rewrite times_intro; [exact K | exact L | simpl; now rewrite Hc, Hw].
  - change ("-" ++ w ++ t) with (String "-" (w ++ t)).
    apply opt_taken. now rewrite times_intro.
Qed.

(** The first test accepts the five groups with or without each dash. *)
Lemma uuidPattern_intro (a b c d e x1 x2 x3 x4 : string) :
  hexGroups hexAny a b c d e ->
  optionalDash x1 -> optionalDash x2 -> optionalDash x3 -> optionalDash x4 ->
  test uuidPattern (a ++ x1 ++ b ++ x2 ++ c ++ x3 ++ d ++ x4 ++ e) = true.
Proof.
  intros ([La Aa] & [Lb Ab] & [Lc Ac] & [Ld Ad] & [Le Ae]) H1 H2 H3 H4.
  unfold test, uuidPattern.
  rewrite (times_intro 8) by assumption.
  rewrite (opt_dash_group x1 b _ 3 _ tt H1 Lb Ab); [reflexivity|].
  rewrite (opt_dash_group x2 c _ 3 _ tt H2 Lc Ac); [reflexivity|].
  rewrite (opt_dash_group x3 d _ 3 _ tt H3 Ld Ad); [reflexivity|].
  rewrite <- (append_nil_r e).
  rewrite (opt_dash_group x4 e _ 11 _ tt H4 Le Ae); reflexivity.
Qed.

Lemma atEnd_inv {R} (k : string -> option R) (s : string) (r : R) :
  atEnd k s = Some r -> s = "".
Proof. unfold atEnd. destruct s; [reflexivity | discriminate]. Qed.

Lemma optionalDash_of (d : string) :
  d = "" \/ d = String "-" "" -> optionalDash d.
Proof. exact (fun H => H). Qed.

Lemma uuidPattern_inv (s : string) :
  test uuidPattern s = true ->
  exists a b c d e x1 x2 x3 x4,
    hexGroups hexAny a b c d e /\
    optionalDash x1 /\ optionalDash x2 /\ optionalDash x3 /\ optionalDash x4 /\
    s = a ++ x1 ++ b ++ x2 ++ c ++ x3 ++ d ++ x4 ++ e.
Proof.
  unfold test, uuidPattern.
  destruct (times 8 hexAny _ "" s) as [[]|] eqn:H; [intros _|discriminate].
  apply times_inv in H as (a & t & -> & La & Aa & H).
  apply opt_inv in H as (x1 & t1 & -> & H1 & H).
  apply times_inv in H as (b & t & -> & Lb & Ab & H).
  apply opt_inv in H as (x2 & t2 & -> & H2 & H).
  apply times_inv in H as (c & t & -> & Lc & Ac & H).
  apply opt_inv in H as (x3 & t3 & -> & H3 & H).
  apply times_inv in H as (d & t & -> & Ld & Ad & H).
  apply opt_inv in H as (x4 & t4 & -> & H4 & H).
  apply times_inv in H as (e & t & -> & Le & Ae & H).
  apply atEnd_inv in H as ->.
  exists a, b, c, d, e, x1, x2, x3, x4. rewrite append_nil_r.
  unfold hexGroups. repeat split; auto.
Qed.

Lemma hex32Pattern_inv (s : string) :
  test hex32Pattern s = true ->
  exists a b c d e, hexGroups hexAny a b c d e /\ s = a ++ b ++ c ++ d ++ e.
Proof.
  unfold test, hex32Pattern.
  destruct (times 32 hexAny _ "" s) as [[]|] eqn:H; [intros _|discriminate].
  apply times_inv in H as (w & t & -> & L & A & H).
  apply atEnd_inv in H as ->. rewrite append_nil_r.
  destruct (split32 _ _ L A) as (a & b & c & d & e & -> & G). eauto 10.
Qed.

Lemma urlWithTitlePattern_inv (t g rest : string) :
  urlWithTitlePattern t = Some (g, rest) ->
  exists a b c d e, hexGroups hexAny a b c d e /\ g = a ++ b ++ c ++ d ++ e.
Proof.
  unfold urlWithTitlePattern, char. destruct t as [|x t]; [discriminate|].
  destruct (_ || _)%bool; [|discriminate]. intros H.
  apply times_inv in H as (w & t' & -> & L & A & H).
  assert (g = w) as ->.
  { unfold alt, atEnd in H. simpl in H.
    destruct t' as [|y t']; simpl in H; [congruence|].
    destruct (Ascii.eqb y "?"); [congruence|].
    destruct (Ascii.eqb y "#"); congruence. }
  destruct (split32 _ _ L A) as (a & b & c & d & e & -> & G). eauto 10.
Qed.

Lemma urlPatternDashes_inv (t g rest : string) :
  urlPatternDashes t = Some (g, rest) ->
  exists a b c d e, hexGroups hexAny a b c d e /\ g = dashed a b c d e.
Proof.
  unfold urlPatternDashes. intros H.
  apply times_inv in H as (a & t1 & -> & La & Aa & H).
  apply ReFacts.lit_inv in H as (t2 & -> & H).
  apply times_inv in H as (b & t3 & -> & Lb & Ab & H).
  apply ReFacts.lit_inv in H as (t4 & -> & H).
  apply times_inv in H as (c & t5 & -> & Lc & Ac & H).
  apply ReFacts.lit_inv in H as (t6 & -> & H).
  apply times_inv in H as (d & t7 & -> & Ld & Ad & H).
  apply ReFacts.lit_inv in H as (t8 & -> & H).
  apply times_inv in H as (e & t9 & -> & Le & Ae & H).
  injection H as <- _.
  exists a, b, c, d, e. split; [unfold hexGroups; repeat split; auto|].
  unfold dashed. simpl. now rewrite !append_assoc.
Qed.

Lemma formatWithDashes_canonical (a b c d e x1 x2 x3 x4 : string) :
  hexGroups hexAny a b c d e ->
  optionalDash x1 -> optionalDash x2 -> optionalDash x3 -> optionalDash x4 ->
  canonicalId
    (formatWithDashes (a ++ x1 ++ b ++ x2 ++ c ++ x3 ++ d ++ x4 ++ e)).
Proof.
  intros H H1 H2 H3 H4. rewrite formatWithDashes_groups by assumption.
  exists (toLowerCase a), (toLowerCase b), (toLowerCase c), (toLowerCase d),
    (toLowerCase e).
  split; [now apply hexGroups_lower | reflexivity].
Qed.

End Identifiers.

Section ExtractId.
Import Str StrFacts Rx RxFacts Id.

Lemma canonical_fixed (s : string) :
  canonicalId s -> extractNotionId s = s.
Proof.
  intros (a & b & c & d & e & G & ->).
  assert (GA : hexGroups hexAny a b c d e).
  { destruct G as ([La Aa] & [Lb Ab] & [Lc Ac] & [Ld Ad] & [Le Ae]).
    unfold hexGroups.
    repeat split; auto; eapply allChars_weaken;
      try apply hexLower_hexAny; assumption. }
  unfold extractNotionId, dashed.
  rewrite uuidPattern_intro by (assumption || now right).
  rewrite formatWithDashes_groups by (assumption || now right).
  destruct G as ([La Aa] & [Lb Ab] & [Lc Ac] & [Ld Ad] & [Le Ae]).
  now rewrite !toLowerCase_hexLower by assumption.
Qed.

Lemma extract_cases (input : string) :
  extractNotionId input = input \/ canonicalId (extractNotionId input).
Proof.
  unfold extractNotionId.
  destruct (test uuidPattern input) eqn:T1.
  { right. apply uuidPattern_inv in T1
      as (a & b & c & d & e & x1 & x2 & x3 & x4 & G & H1 & H2 & H3 & H4 & ->).
    now apply formatWithDashes_canonical. }
  destruct (test hex32Pattern input) eqn:T2.
  { right. apply hex32Pattern_inv in T2 as (a & b & c & d & e & G & ->).
    apply (formatWithDashes_canonical a b c d e "" "" "" "");
      (assumption || now left). }
  destruct (search urlWithTitlePattern input) as [[[pre g] rest]|] eqn:S1.
  { right. apply search_inv in S1 as (t & _ & S1).
    apply urlWithTitlePattern_inv in S1 as (a & b & c & d & e & G & ->).
    apply (formatWithDashes_canonical a b c d e "" "" "" "");
      (assumption || now left). }
  destruct (search urlPatternDashes input) as [[[pre g] rest]|] eqn:S2.
  { right. apply search_inv in S2 as (t & _ & S2).
    apply urlPatternDashes_inv in S2 as (a & b & c & d & e & G & ->).
    apply (formatWithDashes_canonical a b c d e "-" "-" "-" "-");
      (assumption || now right). }
  now left.
Qed.

(** A run of digits that ends before a character outside the class lies
    within what precedes that character. *)
Lemma run_before (p : ascii -> bool) (w t u v : string) (z : ascii) :
  w ++ t = u ++ String z v -> allChars p w = true -> p z = false ->
  exists u', u = w ++ u'.
Proof.
  revert u. induction w as [|x w IH]; intros u E A Hz; [now exists u|].
  simpl in A. apply andb_prop in A as [Hx Hw].
  destruct u as [|y u]; simpl in E.
  - injection E as -> _. congruence.
  - injection E as -> E. destruct (IH _ E Hw Hz) as [u' ->]. now exists u'.
Qed.

Lemma search_none_here {G} (re : string -> option (G * string)) (s : string) :
  search re s = None -> re s = None.
Proof.
  destruct s; simpl; destruct (re _) as [[? ?]|]; congruence.
Qed.

(** Past a text without a run of 32 digits, the URL pattern first matches
    where that text ends. *)
Lemma search_url (prefix t g rest v : string) (z : ascii) :
  search hexRun32 prefix = None ->
  t = String z v -> hexAny z = false ->
  urlWithTitlePattern t = Some (g, rest) ->
  search urlWithTitlePattern (prefix ++ t) = Some (prefix, g, rest).
Proof.
  intros Hrun -> Hz Ht. induction prefix as [|x p IH].
  - now apply search_here.
  - pose proof (search_none_here _ _ Hrun) as R0.
    cbn [search] in Hrun. rewrite R0 in Hrun.
    destruct (search hexRun32 p) as [[[? ?] ?]|] eqn:R1; [discriminate|].
    pose proof (search_none_here _ _ R1) as Rp.
    change (String x p ++ String z v) with (String x (p ++ String z v)).
    cbn [search].
    destruct (urlWithTitlePattern (String x (p ++ String z v)))
      as [[g' rest']|] eqn:U.
    + exfalso. unfold urlWithTitlePattern, char in U.
      destruct (_ || _)%bool; [|discriminate].
      apply times_inv in U as (w & t' & E & L & A & _).
      destruct (run_before _ _ _ _ _ _ (eq_sym E) A Hz) as [u' ->].
      unfold hexRun32 in Rp. now rewrite times_intro in Rp.
    + now rewrite (IH eq_refl).
Qed.

Lemma urlWithTitlePattern_intro (sep : ascii) (h tail : string) :
  sep = "/"%char \/ sep = "-"%char ->
  String.length h = 32 -> allChars hexAny h = true ->
  tail = "" \/ (exists x, tail = String "?" x) \/ (exists x, tail = String "#" x) ->
  exists rest, urlWithTitlePattern (String sep (h ++ tail)) = Some (h, rest).
Proof.
  intros Hsep L A Htail. unfold urlWithTitlePattern, char.
  assert (S : (Ascii.eqb sep "/" || Ascii.eqb sep "-")%bool = true)
    by (destruct Hsep as [->| ->]; reflexivity).
  rewrite S, times_intro by assumption.
  destruct Htail as [->|[[x ->]|[x ->]]]; eexists; reflexivity.
Qed.

End ExtractId.

(** X8: [extractNotionId] returns either its input unchanged (when none
    of its patterns matches) or an identifier in canonical form:
    lower-case hexadecimal digits in groups of 8-4-4-4-12 separated by
    dashes. *)
Theorem X8_extract_canonical_or_unchanged (input : string) :
  Id.extractNotionId input = input \/ canonicalId (Id.extractNotionId input).
Proof. apply extract_cases. Qed.

(** X9: [extractNotionId] leaves a canonical identifier as it is, and
    applying it twice is the same as applying it once. *)
Theorem X9_extract_idempotent (input : string) :
  (canonicalId input -> Id.extractNotionId input = input) /\
  Id.extractNotionId (Id.extractNotionId input) = Id.extractNotionId input.
Proof.
  split; [apply canonical_fixed|].
  destruct (extract_cases input) as [E|C].
  - now rewrite !E.
  - now apply canonical_fixed.
Qed.

Lemma X9_extract_idempotent_witness :
  Id.extractNotionId "12345678-90ab-cdef-1234-567890abcdef"
  = "12345678-90ab-cdef-1234-567890abcdef".
Proof.
  apply (proj1 (X9_extract_idempotent "12345678-90ab-cdef-1234-567890abcdef")).
  exists "12345678", "90ab", "cdef", "1234", "567890abcdef".
  split; [|reflexivity]. unfold hexGroups. repeat apply conj; reflexivity.
Defined.

(** X10: the case of the digits and the dashes between the groups do not
    matter: for five groups of 8, 4, 4, 4 and 12 hexadecimal digits in
    either case, written with or without each of the four dashes,
    [extractNotionId] returns the groups in lower case with all four
    dashes. *)
Theorem X10_extract_normalises (a b c d e x1 x2 x3 x4 : string) :
  hexGroups Rx.hexAny a b c d e ->
  optionalDash x1 -> optionalDash x2 -> optionalDash x3 -> optionalDash x4 ->
  Id.extractNotionId (a ++ x1 ++ b ++ x2 ++ c ++ x3 ++ d ++ x4 ++ e)
  = dashed (Id.toLowerCase a) (Id.toLowerCase b) (Id.toLowerCase c)
           (Id.toLowerCase d) (Id.toLowerCase e).
Proof.
  intros G H1 H2 H3 H4. unfold Id.extractNotionId.
  rewrite uuidPattern_intro by assumption.
  now apply formatWithDashes_groups.
Qed.

Lemma X10_extract_normalises_witness :
  Id.extractNotionId "12345678-90ABcdef-1234567890abCDEF"
  = "12345678-90ab-cdef-1234-567890abcdef".
Proof.
  apply (X10_extract_normalises "12345678" "90AB" "cdef" "1234"
                                "567890abCDEF" "-" "" "-" "").
  - unfold hexGroups. repeat apply conj; reflexivity.
  - now right.
  - now left.
  - now right.
  - now left.
Defined.

(** X11: the second test of [extractNotionId], for 32 digits without
    dashes, never decides: whatever it accepts the first test has
    accepted already. *)
Theorem X11_second_test_subsumed (input : string) :
  Rx.test Id.hex32Pattern input = true -> Rx.test Id.uuidPattern input = true.
Proof.
  intros H. apply hex32Pattern_inv in H as (a & b & c & d & e & G & ->).
  apply (uuidPattern_intro a b c d e "" "" "" ""); (assumption || now left).
Qed.

Lemma X11_second_test_subsumed_witness :
  Rx.test Id.uuidPattern "1234567890abcdef1234567890ABCDEF" = true.
Proof.
  apply (X11_second_test_subsumed "1234567890abcdef1234567890ABCDEF").
  reflexivity.
Defined.

(** X12: the identifier at the end of a URL is extracted: when the input
    is a text that starts with a character that is no hexadecimal digit
    and contains no run of 32 hexadecimal digits, then a slash or a dash,
    then 32 hexadecimal digits, and then nothing or a part starting with
    "?" or "#", [extractNotionId] returns those digits in canonical
    form. *)
Theorem X12_extract_from_url
        (first sep : ascii) (path a b c d e tail : string) :
  Rx.hexAny first = false ->
  Rx.search hexRun32 (String first path) = None ->
  sep = "/"%char \/ sep = "-"%char ->
  hexGroups Rx.hexAny a b c d e ->
  tail = "" \/ (exists x, tail = String "?" x) \/ (exists x, tail = String "#" x) ->
  Id.extractNotionId
    (String first path ++ String sep ((a ++ b ++ c ++ d ++ e) ++ tail))
  = dashed (Id.toLowerCase a) (Id.toLowerCase b) (Id.toLowerCase c)
           (Id.toLowerCase d) (Id.toLowerCase e).
Proof.
  intros Hfirst Hrun Hsep G Htail.
  destruct (hexGroups_all _ _ _ _ _ _ G) as [L A].
  destruct (urlWithTitlePattern_intro sep _ tail Hsep L A Htail) as [rest U].
  assert (Hz : Rx.hexAny sep = false) by (destruct Hsep as [->| ->]; reflexivity).
  unfold Id.extractNotionId.
  assert (T1 : Rx.test Id.uuidPattern
                 (String first path
                    ++ String sep ((a ++ b ++ c ++ d ++ e) ++ tail)) = false).
  { unfold Rx.test, Id.uuidPattern. simpl. now rewrite Hfirst. }
  assert (T2 : Rx.test Id.hex32Pattern
                 (String first path
                    ++ String sep ((a ++ b ++ c ++ d ++ e) ++ tail)) = false).
  { unfold Rx.test, Id.hex32Pattern. simpl. now rewrite Hfirst. }
  rewrite T1, T2.
  rewrite (search_url _ _ _ _ _ _ Hrun eq_refl Hz U).
  apply (formatWithDashes_groups a b c d e "" "" "" "");
    (assumption || now left).
Qed.

Lemma X12_extract_from_url_witness :
  Id.extractNotionId
    "https://www.notion.so/My-Page-1234567890abcdef1234567890ABCDEF?pvs=4"
  = "12345678-90ab-cdef-1234-567890abcdef".
Proof.
  apply (X12_extract_from_url
           "h" "-" "ttps://www.notion.so/My-Page"
           "12345678" "90ab" "cdef" "1234" "567890ABCDEF" "?pvs=4").
  - reflexivity.
  - reflexivity.
  - now right.
  - unfold hexGroups. repeat apply conj; reflexivity.
  - right. left. now exists "pvs=4".
Defined.

(* ================================================================== *)
(** * Properties of the title helpers *)

Section Titles.
Import Str StrFacts.

Lemma titleItem_like (t : value) :
  titleItemLike t = true -> titleItem t = Return (VString (titleText t)).
Proof.
  destruct t as [| | | | |items|props|name]; try discriminate.
  unfold titleItemLike, titleItem, titleText, runLike, runText, get, optGet.
  destruct (lookup "plain_text" props) as [[| | | |s|?|?|?]|]; try discriminate;
    simpl;
    try (destruct s; [|intros _; reflexivity]; simpl);
    (destruct (lookup "text" props) as [[| | | | |?|fields|?]|];
     try discriminate; try reflexivity;
     simpl; destruct (lookup "content" fields) as [[| | | |c|?|?|?]|];
     try discriminate; try reflexivity; intros _; now destruct c).
Qed.

Lemma titleItems_like (items : list value) :
  forallb titleItemLike items = true ->
  (texts <- mapArray (VArray items) titleItem ;; joinValues "" texts)
  = Return (String.concat "" (map titleText items)).
Proof.
  intros H.
  assert (M : mapM titleItem items = Return (map VString (map titleText items))).
  { induction items as [|t items IH]; simpl in *; [reflexivity|].
    apply andb_prop in H as [H1 H2].
    now rewrite (titleItem_like _ H1), (IH H2). }
  simpl. rewrite M. simpl. apply joinValues_strings.
Qed.

Lemma titleLoop_skip (k : string) (prop : value)
      (rest : list (string * value)) :
  notTitle prop = true -> titleLoop ((k, prop) :: rest) = titleLoop rest.
Proof.
  destruct prop as [| | | | |items|fields|name]; try discriminate;
    try reflexivity.
  simpl. destruct (lookup "type" fields) as [[| | | |type|?|?|?]|];
    try reflexivity.
  intros H. apply negb_true_iff, String.eqb_neq in H.
  simpl.
  repeat match goal with
         | |- match ?x with EmptyString => _ | String _ _ => _ end = _ =>
             destruct x; try reflexivity
         | |- match ?x with Ascii _ _ _ _ _ _ _ _ => _ end = _ =>
             destruct x as [[] [] [] [] [] [] [] []]; try reflexivity
         end.
  congruence.
Qed.

Lemma titleLoop_before (before rest : list (string * value)) :
  forallb (fun kv => notTitle (snd kv)) before = true ->
  titleLoop (before ++ rest) = titleLoop rest.
Proof.
  induction before as [|[k prop] before IH]; [reflexivity|].
  intros H. simpl in H. apply andb_prop in H as [H1 H2].
  rewrite <- app_comm_cons, (titleLoop_skip _ _ _ H1). now apply IH.
Qed.

Lemma titleLoop_title (k : string) (prop : value) (items : list value)
      (rest : list (string * value)) :
  titleProperty prop items ->
  forallb titleItemLike items = true ->
  titleLoop ((k, prop) :: rest)
  = Return (String.concat "" (map titleText items)).
Proof.
  intros (fields & -> & Ht & Hi) Hl. simpl. rewrite Ht. simpl. rewrite Hi.
  simpl. apply (titleItems_like _ Hl).
Qed.

(** Reading the type of a property that is null or undefined throws. *)
Lemma titleLoop_nullish (k : string) (prop : value)
      (rest : list (string * value)) :
  nullish prop = true -> titleLoop ((k, prop) :: rest) = ThrowTypeError.
Proof. destruct prop; try discriminate; reflexivity. Qed.

End Titles.

(** X13: [getPageTitle] takes the title from the first property of type
    'title' and never looks at the properties after it: when the
    properties before it are of other types, the result is the
    concatenation of the texts of the title's items, the [plain_text] of an
    item going before the [content] of its [text]; an empty title gives
    the empty string. *)
Theorem X13_page_title_first_title_property
        (fields props before after : list (string * value))
        (key : string) (prop : value) (items : list value) :
  lookup "properties" fields = Some (VObject props) ->
  ownProps props = (before ++ (key, prop) :: after)%list ->
  forallb (fun kv => notTitle (snd kv)) before = true ->
  titleProperty prop items ->
  forallb titleItemLike items = true ->
  getPageTitle (VObject fields)
  = Return (String.concat "" (map titleText items)).
Proof.
  intros Hp He Hb Ht Hi. unfold getPageTitle, get. rewrite Hp. simpl.
  rewrite He, (titleLoop_before _ _ Hb).
  now apply titleLoop_title.
Qed.

Lemma X13_page_title_first_title_property_witness :
  getPageTitle
    (VObject
       [("id", VString "p1");
        ("properties",
         VObject
           [("Status", VObject [("type", VString "select")]);
            ("Name",
             VObject
               [("type", VString "title");
                ("title",
                 VArray
                   [VObject [("plain_text", VString "My ");
                             ("text", VObject [("content", VString "x")])];
                    VObject [("text", VObject [("content", VString "page")])]])]);
            ("Broken", VNull)])])
  = Return "My page".
Proof.
  eapply (X13_page_title_first_title_property
           _ _ [("Status", VObject [("type", VString "select")])]
           [("Broken", VNull)] "Name"
           (VObject
              [("type", VString "title");
               ("title",
                VArray
                  [VObject [("plain_text", VString "My ");
                            ("text", VObject [("content", VString "x")])];
                   VObject [("text", VObject [("content", VString "page")])]])])
           [VObject [("plain_text", VString "My ");
                     ("text", VObject [("content", VString "x")])];
            VObject [("text", VObject [("content", VString "page")])]]).
  - reflexivity.
  - reflexivity.
  - reflexivity.
  - eexists. repeat apply conj; reflexivity.
  - reflexivity.
Defined.

(** X14: [getPageTitle] returns 'Untitled' when every property of the
    page is a value other than null and undefined and none of them is of
    type 'title'.  That no property is of type 'title' is not enough: a
    property that is null or undefined, reached before any property of
    type 'title', makes [getPageTitle] throw a TypeError. *)
Theorem X14_page_without_title
        (fields props : list (string * value)) :
  lookup "properties" fields = Some (VObject props) ->
  (forallb (fun kv => notTitle (snd kv)) (ownProps props) = true ->
   getPageTitle (VObject fields) = Return "Untitled") /\
  (forall before key prop after,
      ownProps props = (before ++ (key, prop) :: after)%list ->
      forallb (fun kv => notTitle (snd kv)) before = true ->
      nullish prop = true ->
      getPageTitle (VObject fields) = ThrowTypeError).
Proof.
  intros Hp. unfold getPageTitle, get. rewrite Hp. simpl. split.
  - intros Hn. rewrite <- (app_nil_r (ownProps props)).
    now rewrite (titleLoop_before _ [] Hn).
  - intros before key prop after He Hb Hn.
    rewrite He, (titleLoop_before _ _ Hb).
    now apply titleLoop_nullish.
Qed.

Lemma X14_page_without_title_witness :
  getPageTitle
    (VObject [("properties",
               VObject [("Status", VObject [("type", VString "select")])])])
  = Return "Untitled" /\
  getPageTitle
    (VObject [("properties",
               VObject [("Status", VObject [("type", VString "select")]);
                        ("Broken", VNull)])])
  = ThrowTypeError.
Proof.
  split.
  - apply (proj1 (X14_page_without_title
                    [("properties",
                      VObject [("Status",
                                VObject [("type", VString "select")])])]
                    [("Status", VObject [("type", VString "select")])]
                    eq_refl)).
    reflexivity.
  - apply (proj2 (X14_page_without_title
                    [("properties",
                      VObject [("Status", VObject [("type", VString "select")]);
                               ("Broken", VNull)])]
                    [("Status", VObject [("type", VString "select")]);
                     ("Broken", VNull)]
                    eq_refl)
                 [("Status", VObject [("type", VString "select")])]
                 "Broken" VNull []);
      reflexivity.
Defined.

(** X15: [getDatabaseTitle] returns the concatenation of the texts of the
    title's items, and 'Untitled' when that concatenation is empty; in
    particular for an empty title, for which [getPageTitle] returns the
    empty string. *)
Theorem X15_database_title
        (fields : list (string * value)) (items : list value) :
  lookup "title" fields = Some (VArray items) ->
  forallb titleItemLike items = true ->
  getDatabaseTitle (VObject fields)
  = Return (let s := String.concat "" (map titleText items) in
            if Str.isEmpty s then "Untitled" else s).
Proof.
  intros Ht Hi. unfold getDatabaseTitle, get. rewrite Ht. simpl.
  pose proof (titleItems_like _ Hi) as J. simpl in J.
  destruct (mapM titleItem items) as [texts|]; simpl in *; [|discriminate].
  now rewrite J.
Qed.

Lemma X15_database_title_witness :
  getDatabaseTitle (VObject [("title", VArray [])]) = Return "Untitled" /\
  getDatabaseTitle
    (VObject [("title", VArray [VObject [("plain_text", VString "Tasks")]])])
  = Return "Tasks".
Proof.
  split.
  - apply (X15_database_title [("title", VArray [])] []); reflexivity.
  - apply (X15_database_title
             [("title", VArray [VObject [("plain_text", VString "Tasks")]])]
             [VObject [("plain_text", VString "Tasks")]]); reflexivity.
Defined.

(* ================================================================== *)
(** * Properties of the block tools *)

Section BlockTools.
Import Str StrFacts.

Lemma bothOfType_true (blockType : value) (newBlock : NotionBlock)
      (t : string) :
  bothOfType blockType newBlock t = true ->
  blockType = VString t /\ block_type newBlock = t.
Proof.
  unfold bothOfType. intros H. apply andb_prop in H as [H1 H2].
  apply String.eqb_eq in H2.
  destruct blockType; try discriminate. apply String.eqb_eq in H1.
  now subst.
Qed.

(** Reading a property of an object never throws. *)
Lemma get_object (props : list (string * value)) (k : string) :
  exists x, get (VObject props) k = Return x.
Proof.
  unfold get. destruct (lookup k props); [eauto|].
  destruct (mem k objectPrototype); [eauto|].
  destruct (k =? "__proto__"); eauto.
Qed.

Lemma blockValue_object (b : NotionBlock) :
  exists props, blockValue b = VObject props.
Proof. destruct b; simpl; eauto. Qed.

Lemma takeOver_key (newBlock : NotionBlock) (t : string) :
  exists payload, takeOver newBlock t = Return (VObject [(t, payload)]).
Proof.
  unfold takeOver. destruct (blockValue_object newBlock) as [props ->].
  destruct (get_object props t) as [x ->]. simpl. eauto.
Qed.

(** Whatever the new content, the body names the type of the current
    block and nothing else; under the key [__proto__] it names nothing. *)
Lemma updateBody_key (t : string) (newBlock : NotionBlock) (content : string) :
  exists payload,
    updateBody (VString t) newBlock content
    = Return (if String.eqb t "__proto__" then VObject []
              else VObject [(t, payload)]).
Proof.
  unfold updateBody.
  repeat match goal with
         | |- context [bothOfType (VString t) newBlock ?l] =>
             destruct (bothOfType (VString t) newBlock l) eqn:?;
             [ match goal with
               | H : bothOfType _ _ _ = true |- _ =>
                   apply bothOfType_true in H as [[= ->] _];
                   apply takeOver_key
               end | ]
         end.
  simpl. destruct (String.eqb t "__proto__"); [now exists VUndefined | eauto].
Qed.

Lemma bothOfType_mismatch (t l : string) (newBlock : NotionBlock) :
  block_type newBlock <> t -> bothOfType (VString t) newBlock l = false.
Proof.
  intros H. unfold bothOfType.
  destruct (String.eqb_spec t l) as [->|]; [|reflexivity].
  now apply String.eqb_neq in H as ->.
Qed.

End BlockTools.

(** X16: [updateBlock] never changes the type of a block.  It first
    issues a GET on the block, under the identifier [extractNotionId]
    gives; once that GET has answered with a block of type [t] and the
    new content has at least one block, the one request that follows is a
    PATCH on the endpoint of the GET, whose body has a single property,
    named [t].  The type [__proto__] is the exception: the computed
    assignment sets the prototype, and the body is the empty object. *)
Theorem X16_update_keeps_block_type
        (block_id content t : string) (getResponse : NotionResponse)
        (fields : list (string * value))
        (newBlock : NotionBlock) (others : list NotionBlock) :
  success getResponse = true ->
  data getResponse = VObject fields ->
  lookup "type" fields = Some (VString t) ->
  markdownToBlocks content = newBlock :: others ->
  exists (next : NotionResponse -> io (completion value)) (payload : value),
    updateBlock block_id content
    = Request "GET" ("/blocks/" ++ Id.extractNotionId block_id) VUndefined
              next /\
    next getResponse
    = Request "PATCH" ("/blocks/" ++ Id.extractNotionId block_id)
              (if String.eqb t "__proto__" then VObject []
               else VObject [(t, payload)])
              (fun response => Done (updated response)).
Proof.
  intros Hs Hd Ht Hb.
  destruct (updateBody_key t newBlock content) as [payload Hu].
  exists (updateFrom (Id.extractNotionId block_id) content), payload.
  split; [reflexivity|].
  unfold updateFrom, failed.
  rewrite Hs, Hd. simpl. rewrite Ht, Hb, Hu. reflexivity.
Qed.

Lemma X16_update_keeps_block_type_witness :
  exists (next : NotionResponse -> io (completion value)) (payload : value),
    updateBlock "b1" "new text"
    = Request "GET" "/blocks/b1" VUndefined next /\
    next (mkResponse true
                     (VObject [("id", VString "b1");
                               ("type", VString "heading_1")])
                     VUndefined)
    = Request "PATCH" "/blocks/b1" (VObject [("heading_1", payload)])
              (fun response => Done (updated response)).
Proof.
  apply (X16_update_keeps_block_type
           "b1" "new text" "heading_1"
           (mkResponse true
                       (VObject [("id", VString "b1");
                                 ("type", VString "heading_1")])
                       VUndefined)
           [("id", VString "b1"); ("type", VString "heading_1")]
           (RichTextBlock "paragraph" [plainRun "new text"]) []);
    reflexivity.
Defined.

(** X17: when the first block of the new content is not of the type [t]
    of the current block, [updateBlock] stores the new content as it was
    typed: one plain run holding the whole text, markup and line feeds
    included, under the type of the current block.  For the type
    [__proto__] the body is the empty object instead. *)
Theorem X17_update_mismatch_stores_raw_content
        (t content : string) (newBlock : NotionBlock) :
  block_type newBlock <> t ->
  updateBody (VString t) newBlock content
  = Return (if String.eqb t "__proto__" then VObject []
            else VObject [(t, VObject [("rich_text",
                                        richTextArray [plainRun content])])]).
Proof.
  intros Hm. unfold updateBody.
  rewrite !(bothOfType_mismatch _ _ _ Hm). simpl.
  now destruct (String.eqb t "__proto__").
Qed.

Lemma X17_update_mismatch_stores_raw_content_witness :
  updateBody (VString "heading_1")
             (RichTextBlock "paragraph" (parseInlineFormatting "**new**"))
             "**new**"
  = Return (VObject [("heading_1",
                      VObject [("rich_text",
                                richTextArray [plainRun "**new**"])])]) /\
  updateBody (VString "__proto__")
             (RichTextBlock "paragraph" (parseInlineFormatting "**new**"))
             "**new**"
  = Return (VObject []).
Proof.
  split.
  - apply (X17_update_mismatch_stores_raw_content
             "heading_1" "**new**"
             (RichTextBlock "paragraph" (parseInlineFormatting "**new**"))).
    discriminate.
  - apply (X17_update_mismatch_stores_raw_content
             "__proto__" "**new**"
             (RichTextBlock "paragraph" (parseInlineFormatting "**new**"))).
    discriminate.
Defined.

(** X18: [appendBlocks] sends nothing for a content without blocks: when
    the content has no fence marker and all its lines are blank, the tool
    is done at once with the failure 'No valid content to append'. *)
Theorem X18_append_blank_content (parent_id content : string) :
  fences (Str.split_nl content) = 0 ->
  forallb isBlank (Str.split_nl content) = true ->
  appendBlocks parent_id content
  = Done (Return (failure (VString "No valid content to append"))).
Proof.
  intros Hf Hb. unfold appendBlocks.
  rewrite (markdownToBlocks_prose _ Hf).
  assert (E : flat_map lineBlocks (Str.split_nl content) = []).
  { clear Hf. induction (Str.split_nl content) as [|l ls IH]; [reflexivity|].
    simpl in Hb. apply andb_prop in Hb as [Hl Hls].
    simpl. rewrite (IH Hls), app_nil_r.
    pose proof (lineToBlock_blank l) as B. rewrite Hl in B.
    unfold lineBlocks. now rewrite B. }
  now rewrite E.
Qed.

Lemma X18_append_blank_content_witness :
  appendBlocks "p1" ("  " ++ Str.nl ++ "")
  = Done (Return (failure (VString "No valid content to append"))).
Proof.
  apply (X18_append_blank_content "p1" ("  " ++ Str.nl ++ "")); reflexivity.
Defined.
